(** * AuraCast front end: a shallow embedding of the page controller

    The repository ships three generations of one browser script.  The
    newest one (upload -> parse -> episode list -> generate -> result, with
    history and the interrupt feature) is embedded here handler by handler;
    the older staged-progress script ([static/script.js]) is embedded in
    [Module Legacy] where it differs.

    Conventions of the embedding:
    - a JavaScript string is the list of its UTF-16 code units;
    - [null]/[undefined] are [None]; a JS truthiness test on a string is
      [truthy] (the empty string is falsy);
    - the DOM is a finite map from element ids to elements, so that
      [document.getElementById] is a lookup and a guard [if (el)] is a
      test that the lookup succeeds;
    - module-level [let] variables, the DOM and the browser environment
      (timers, clock, localStorage, issued requests, calls of [play()])
      are fields of one [State]; every event handler is a function
      [State -> State], and [step] dispatches an event to its handler;
    - a promise callback is the handler of the event that settles the
      promise (an answer, a network error, a rejected [play()]), and a
      [setTimeout] callback is data in the timer table until it fires.

    Left out, as they touch nothing the handlers below read: the theme
    toggle, the label of the chosen file, opening and closing the history
    sidebar, and keyboard focus. *)

From Stdlib Require Import QArith Ascii String DecimalString.
From stdpp Require Import gmap strings list fin_maps.

Set Primitive Projections.

(** ** JavaScript strings *)

Abbreviation jsstring := (list N).

(** A string literal of the source whose characters are all ASCII. *)
Definition lit (s : string) : jsstring :=
  (fun a => N_of_ascii a) <$> list_ascii_of_string s.

(** [!!s] for a string: only the empty string is falsy. *)
Definition truthy (s : jsstring) : bool :=
  match s with [] => false | _ => true end.

(** [o || d] where [o] is a possibly missing string. *)
Definition or_else (o : option jsstring) (d : jsstring) : jsstring :=
  match o with
  | Some s => if truthy s then s else d
  | None => d
  end.

(** [o || null]. *)
Definition or_null (o : option jsstring) : option jsstring :=
  match o with
  | Some s => if truthy s then Some s else None
  | None => None
  end.

(** [if (o)] for a possibly missing string. *)
Definition truthy_opt (o : option jsstring) : bool :=
  match o with Some s => truthy s | None => false end.

(** [String.prototype.toLowerCase] on one code unit.  The mapping is the
    Unicode one on the Latin-1 range (A-Z, and the accented capitals
    U+00C0-U+00DE except the multiplication sign); code units above U+00FF
    are left as they are.  No character outside A-Z lower-cases to one of
    the letters of "pdf" or "epub", so the extension test of
    [validateFile] is not affected by the restriction. *)
Definition lower_unit (c : N) : N :=
  if (65 <=? c)%N && (c <=? 90)%N then (c + 32)%N
  else if (192 <=? c)%N && (c <=? 222)%N && negb (c =? 215)%N then (c + 32)%N
  else c.

Definition toLowerCase (s : jsstring) : jsstring := lower_unit <$> s.

(** White space and line terminators of ECMAScript, as stripped by
    [String.prototype.trim]. *)
Definition is_space (c : N) : bool :=
  ((9 <=? c) && (c <=? 13) || (c =? 32) || (c =? 160) || (c =? 5760)
   || (8192 <=? c) && (c <=? 8202) || (c =? 8232) || (c =? 8233)
   || (c =? 8239) || (c =? 8287) || (c =? 12288) || (c =? 65279))%N.

Fixpoint trimStart (s : jsstring) : jsstring :=
  match s with
  | c :: s' => if is_space c then trimStart s' else s
  | [] => []
  end.

Definition trim (s : jsstring) : jsstring :=
  reverse (trimStart (reverse (trimStart s))).

(** [s.split(sep)] for a separator of one code unit: never empty. *)
Fixpoint split (sep : N) (s : jsstring) : list jsstring :=
  match s with
  | [] => [[]]
  | c :: s' =>
      if (c =? sep)%N then [] :: split sep s'
      else match split sep s' with
           | seg :: segs => (c :: seg) :: segs
           | [] => [[c]]
           end
  end.

(** [segs.pop()] as used on the result of [split], which has a last
    element; the default stands for the [undefined] of an empty array. *)
Definition pop (segs : list jsstring) : jsstring := default [] (last segs).

(** [s.lastIndexOf(c)], [-1] when [c] does not occur. *)
Fixpoint lastIndexOf_from (c : N) (s : jsstring) (i : Z) (found : Z) : Z :=
  match s with
  | [] => found
  | d :: s' => lastIndexOf_from c s' (i + 1)%Z (if (d =? c)%N then i else found)
  end.

Definition lastIndexOf (c : N) (s : jsstring) : Z := lastIndexOf_from c s 0%Z (-1)%Z.

(** [s.slice(i)] and [s.slice(0, k)] for the non-negative indices the
    script passes. *)
Definition slice_from (i : Z) (s : jsstring) : jsstring := drop (Z.to_nat i) s.
Definition slice_to (k : Z) (s : jsstring) : jsstring := take (Z.to_nat k) s.

(** *** Numbers as text *)

(** The decimal digits of a non-negative integer. *)
Definition decimal_digits (n : N) : jsstring :=
  lit (NilZero.string_of_uint (N.to_uint n)).

(** The number a non-negative integer is in JS: the nearest double, a tie
    going to the even significand; [None] is [Infinity].  Below 2^53
    every integer is a double. *)
Definition nearest_double (n : N) : option N :=
  if (n <? 2 ^ 53)%N then Some n
  else
    let e := (N.log2 n - 52)%N in
    let q := N.shiftr n e in
    let r := (n - N.shiftl q e)%N in
    let half := N.shiftl 1 (e - 1) in
    let q' := if (half <? r)%N || ((r =? half)%N && N.odd q) then (q + 1)%N else q in
    let x := N.shiftl q' e in
    if (N.log2 x <? 1024)%N then Some x else None.

(** The decimal with the fewest significant digits that still reads back
    as the double [x], the closest to [x] if there are several (Number::toString,
    step 5): multiples of [10^j] are tried for falling [j]. *)
Fixpoint shortest_decimal_from (j : nat) (x : N) : N :=
  let p := (10 ^ N.of_nat j)%N in
  let lo := (x / p)%N in
  let c1 := (lo * p)%N in
  let c2 := (c1 + p)%N in
  let v1 := bool_decide (nearest_double c1 = Some x) in
  let v2 := bool_decide (nearest_double c2 = Some x) in
  if v1 && v2 then
    if (x - c1 <? c2 - x)%N then c1
    else if (c2 - x <? x - c1)%N then c2
    else if N.even lo then c1 else c2
  else if v1 then c1
  else if v2 then c2
  else match j with
       | O => x
       | S j' => shortest_decimal_from j' x
       end.

Fixpoint drop_zeros (s : jsstring) : jsstring :=
  match s with
  | c :: s' => if (c =? 48)%N then drop_zeros s' else s
  | [] => []
  end.

Definition strip_zeros (s : jsstring) : jsstring := reverse (drop_zeros (reverse s)).

(** [String(n)], and the conversion in ["..." + n], of the number that a
    non-negative integer [n] (of a JSON text, or of [Date.now()]) is in
    JS.  Up to 21 digits the shortest decimal is written out in full,
    longer ones in exponent form; an integer below 2^53 is its own
    shortest decimal. *)
Definition Number_toString (n : N) : jsstring :=
  match nearest_double n with
  | None => lit "Infinity"
  | Some x =>
      if (x <? 2 ^ 53)%N then decimal_digits x
      else
        let digits :=
          decimal_digits (shortest_decimal_from (length (decimal_digits x) - 1) x) in
        if (length digits <=? 21)%nat then digits
        else
          match strip_zeros digits with
          | [] => digits
          | d :: rest =>
              (d :: match rest with [] => [] | _ => lit "." ++ rest end)
              ++ lit "e+" ++ decimal_digits (N.of_nat (length digits - 1))
          end
  end.

Definition dot : N := 46.
Definition ellipsis : jsstring := [8230%N].

(** [escapeHtml]: text assigned to [textContent] and read back through
    [innerHTML] has its markup characters replaced by entities. *)
Definition escape_unit (c : N) : jsstring :=
  if (c =? 38)%N then lit "&amp;"
  else if (c =? 60)%N then lit "&lt;"
  else if (c =? 62)%N then lit "&gt;"
  else if (c =? 160)%N then lit "&nbsp;"
  else [c].

Definition escapeHtml (s : jsstring) : jsstring := s ≫= escape_unit.

(** ** Upload validation *)

Record File := mkFile { name : jsstring; size : N }.

Definition MAX_FILENAME_LENGTH : Z := 32.
Definition maxMb : N := 50.

Definition msg_select_file : jsstring := lit "Please select a file.".
Definition msg_unsupported : jsstring := lit "Only PDF and EPUB files are allowed.".
Definition msg_too_large : jsstring :=
  lit "File is too large (max " ++ Number_toString maxMb ++ lit " MB).".

(** The extension [validateFile] looks at. *)
Definition extension (nm : jsstring) : jsstring :=
  toLowerCase (pop (split dot nm)).

Definition accepted_extension (ext : jsstring) : bool :=
  bool_decide (ext = lit "pdf") || bool_decide (ext = lit "epub").

(** [validateFile()]: reads [fileInput.files[0]]; the result is the error
    message, [None] for the [null] of an accepted file. *)
Definition validateFile (file0 : option File) : option jsstring :=
  match file0 with
  | None => Some msg_select_file
  | Some file =>
      let ext := extension (name file) in
      if bool_decide (ext ≠ lit "pdf") && bool_decide (ext ≠ lit "epub")
      then Some msg_unsupported
      else if (maxMb * 1024 * 1024 <? size file)%N then Some msg_too_large
      else None
  end.

(** [formatFileName(name)]: long names are cut to 32 code units, keeping
    the extension. *)
Definition formatFileName (nm : jsstring) : jsstring :=
  if negb (truthy nm) || (Z.of_nat (length nm) <=? MAX_FILENAME_LENGTH)%Z then nm
  else
    let i := lastIndexOf dot nm in
    let ext := if (0 <? i)%Z then slice_from i nm else [] in
    let base := if (0 <? i)%Z then slice_to i nm else nm in
    let keep := (MAX_FILENAME_LENGTH - Z.of_nat (length ext) - 3)%Z in
    slice_to (Z.max 0 keep) base ++ ellipsis ++ ext.


(** ** Data model *)

(** A line of the generated script, as the server sends it. *)
Record ScriptLine := mkLine { speaker : jsstring; text : jsstring }.

(** An episode candidate of a parse response ([id], [title]); [ep_id] is
    the integer the JSON text carries, which the page sees as a number
    (see [Number_toString]). *)
Record Episode := mkEpisode { ep_id : N; ep_title : option jsstring }.

(** An entry of the persisted history ([id], [name], [fullName], [date]). *)
Record HistoryEntry := mkEntry {
  entry_id : N; entry_name : jsstring; fullName : jsstring; date : jsstring }.

(** A DOM element with the attributes and properties the script touches:
    the [hidden] attribute, [disabled], [textContent], the [value] of an
    input, and for the progress bar [style.width] (in percent) and
    [aria-valuenow]. *)
Record Element := mkElement {
  hidden : bool; disabled : bool; textContent : jsstring; value : jsstring;
  width : option N; valuenow : option N }.

(** The single audio element. *)
Record Audio := mkAudio {
  src : option jsstring; audio_hidden : bool; currentTime : Q; paused : bool }.

(** A rendered chat bubble: the host class and the two escaped texts. *)
Record ChatRow := mkRow { host_a : bool; row_speaker : jsstring; row_text : jsstring }.

(** A rendered episode: [dataset.episodeId], [dataset.episodeTitle],
    [textContent] and whether the class [is-selected] is set. *)
Record EpisodeItem := mkItem {
  episodeId : jsstring; episodeTitle : jsstring; item_text : jsstring;
  is_selected : bool }.

(** A rendered history entry: [dataset.historyId] and the two spans. *)
Record HistoryItem := mkHistoryItem {
  historyId : jsstring; item_name : jsstring; item_date : jsstring }.

(** Requests handed to [fetch]. [episode_id] is recorded as the text that
    [parseInt(_, 10)] is applied to. *)
Inductive Request :=
  | PostParse (file0 : option File) (language vibe : jsstring)
  | PostGenerateEpisode (upload_id episode_id user_prompt : jsstring)
  | PostAskHosts (question : jsstring) (episode_script : list ScriptLine)
  | PostDemoEpisode
  | PostGeneratePodcast (file0 : option File) (language vibe : jsstring).

(** What a pending [setTimeout] callback will do when it fires: the
    closures of [showResult] with their captured arguments, and [next] of
    [runStagedProgress] with its captured [stage]. *)
Inductive TimerAction :=
  | ResultTransition (script : list ScriptLine) (audioUrl episodeTitle : option jsstring)
  | AppendChatRow (line : ScriptLine)
  | StagedNext (stage : nat)
  | LegacyTransition (script : list ScriptLine) (audioUrl : option jsstring).

Record Timer := mkTimer { due : N; action : TimerAction }.

(** One call of [audioPlayer.play()]: what was loaded, at which offset, and
    the value [isPlayingInterruptReply] had when playback was started. *)
Record PlayCall := mkPlay {
  play_src : option jsstring; play_at : Q; play_flag : bool }.

(** The module-level [let] variables. *)
Record Vars := mkVars {
  currentUploadId : option jsstring;
  currentEpisodes : list Episode;
  selectedEpisodeId : option jsstring;
  selectedEpisodeTitle : option jsstring;
  currentEpisodeScript : option (list ScriptLine);
  currentMainAudioUrl : option jsstring;
  savedResumeTime : Q;
  isPlayingInterruptReply : bool;
  progressTimeouts : list nat }.

(** The document: elements by id, the audio element, and the children of
    [#script-content], [#episode-list], [#history-list]; [files0] is
    [fileInput.files[0]]. *)
Record Page := mkPage {
  elems : gmap string Element;
  audioPlayer : Audio;
  scriptContent : list ChatRow;
  episodeList : list EpisodeItem;
  historyList : list HistoryItem;
  files0 : option File }.

(** The browser around the script: pending timers by handle, the next
    handle, the clock in milliseconds (also [Date.now()]), the history
    item of localStorage ([None]: no item, or one that cannot be read),
    whether localStorage accepts writes, the requests issued so far and the
    calls of [play()] so far (both newest first). *)
Record Browser := mkBrowser {
  timers : gmap nat Timer;
  nextTimer : nat;
  clock : N;
  stored_history : option (list HistoryEntry);
  storage_writable : bool;
  requests : list Request;
  plays : list PlayCall }.

Record State := mkState { vars : Vars; page : Page; browser : Browser }.

(** *** Field updates *)

Definition upd_vars (f : Vars -> Vars) (st : State) : State :=
  {| vars := f (vars st); page := page st; browser := browser st |}.
Definition upd_page (f : Page -> Page) (st : State) : State :=
  {| vars := vars st; page := f (page st); browser := browser st |}.
Definition upd_browser (f : Browser -> Browser) (st : State) : State :=
  {| vars := vars st; page := page st; browser := f (browser st) |}.

Definition set_session (uid : option jsstring) (eps : list Episode) (v : Vars) : Vars :=
  {| currentUploadId := uid; currentEpisodes := eps;
     selectedEpisodeId := selectedEpisodeId v;
     selectedEpisodeTitle := selectedEpisodeTitle v;
     currentEpisodeScript := currentEpisodeScript v;
     currentMainAudioUrl := currentMainAudioUrl v;
     savedResumeTime := savedResumeTime v;
     isPlayingInterruptReply := isPlayingInterruptReply v;
     progressTimeouts := progressTimeouts v |}.

Definition set_selection (eid etitle : option jsstring) (v : Vars) : Vars :=
  {| currentUploadId := currentUploadId v; currentEpisodes := currentEpisodes v;
     selectedEpisodeId := eid; selectedEpisodeTitle := etitle;
     currentEpisodeScript := currentEpisodeScript v;
     currentMainAudioUrl := currentMainAudioUrl v;
     savedResumeTime := savedResumeTime v;
     isPlayingInterruptReply := isPlayingInterruptReply v;
     progressTimeouts := progressTimeouts v |}.

Definition set_result (scr : option (list ScriptLine)) (url : option jsstring)
    (v : Vars) : Vars :=
  {| currentUploadId := currentUploadId v; currentEpisodes := currentEpisodes v;
     selectedEpisodeId := selectedEpisodeId v;
     selectedEpisodeTitle := selectedEpisodeTitle v;
     currentEpisodeScript := scr; currentMainAudioUrl := url;
     savedResumeTime := savedResumeTime v;
     isPlayingInterruptReply := isPlayingInterruptReply v;
     progressTimeouts := progressTimeouts v |}.

Definition set_savedResumeTime (t : Q) (v : Vars) : Vars :=
  {| currentUploadId := currentUploadId v; currentEpisodes := currentEpisodes v;
     selectedEpisodeId := selectedEpisodeId v;
     selectedEpisodeTitle := selectedEpisodeTitle v;
     currentEpisodeScript := currentEpisodeScript v;
     currentMainAudioUrl := currentMainAudioUrl v;
     savedResumeTime := t;
     isPlayingInterruptReply := isPlayingInterruptReply v;
     progressTimeouts := progressTimeouts v |}.

Definition set_isPlayingInterruptReply (b : bool) (v : Vars) : Vars :=
  {| currentUploadId := currentUploadId v; currentEpisodes := currentEpisodes v;
     selectedEpisodeId := selectedEpisodeId v;
     selectedEpisodeTitle := selectedEpisodeTitle v;
     currentEpisodeScript := currentEpisodeScript v;
     currentMainAudioUrl := currentMainAudioUrl v;
     savedResumeTime := savedResumeTime v;
     isPlayingInterruptReply := b;
     progressTimeouts := progressTimeouts v |}.

Definition set_progressTimeouts (l : list nat) (v : Vars) : Vars :=
  {| currentUploadId := currentUploadId v; currentEpisodes := currentEpisodes v;
     selectedEpisodeId := selectedEpisodeId v;
     selectedEpisodeTitle := selectedEpisodeTitle v;
     currentEpisodeScript := currentEpisodeScript v;
     currentMainAudioUrl := currentMainAudioUrl v;
     savedResumeTime := savedResumeTime v;
     isPlayingInterruptReply := isPlayingInterruptReply v;
     progressTimeouts := l |}.

Definition set_elems (m : gmap string Element) (p : Page) : Page :=
  {| elems := m; audioPlayer := audioPlayer p; scriptContent := scriptContent p;
     episodeList := episodeList p; historyList := historyList p; files0 := files0 p |}.
Definition set_audioPlayer (a : Audio) (p : Page) : Page :=
  {| elems := elems p; audioPlayer := a; scriptContent := scriptContent p;
     episodeList := episodeList p; historyList := historyList p; files0 := files0 p |}.
Definition set_scriptContent (rows : list ChatRow) (p : Page) : Page :=
  {| elems := elems p; audioPlayer := audioPlayer p; scriptContent := rows;
     episodeList := episodeList p; historyList := historyList p; files0 := files0 p |}.
Definition set_episodeList (items : list EpisodeItem) (p : Page) : Page :=
  {| elems := elems p; audioPlayer := audioPlayer p; scriptContent := scriptContent p;
     episodeList := items; historyList := historyList p; files0 := files0 p |}.
Definition set_historyList (items : list HistoryItem) (p : Page) : Page :=
  {| elems := elems p; audioPlayer := audioPlayer p; scriptContent := scriptContent p;
     episodeList := episodeList p; historyList := items; files0 := files0 p |}.
Definition set_files0 (f : option File) (p : Page) : Page :=
  {| elems := elems p; audioPlayer := audioPlayer p; scriptContent := scriptContent p;
     episodeList := episodeList p; historyList := historyList p; files0 := f |}.

Definition set_timers (m : gmap nat Timer) (n : nat) (b : Browser) : Browser :=
  {| timers := m; nextTimer := n; clock := clock b;
     stored_history := stored_history b; storage_writable := storage_writable b;
     requests := requests b; plays := plays b |}.
Definition set_clock (t : N) (b : Browser) : Browser :=
  {| timers := timers b; nextTimer := nextTimer b; clock := t;
     stored_history := stored_history b; storage_writable := storage_writable b;
     requests := requests b; plays := plays b |}.
Definition set_stored_history (h : option (list HistoryEntry)) (b : Browser) : Browser :=
  {| timers := timers b; nextTimer := nextTimer b; clock := clock b;
     stored_history := h; storage_writable := storage_writable b;
     requests := requests b; plays := plays b |}.
Definition set_requests (r : list Request) (b : Browser) : Browser :=
  {| timers := timers b; nextTimer := nextTimer b; clock := clock b;
     stored_history := stored_history b; storage_writable := storage_writable b;
     requests := r; plays := plays b |}.
Definition set_plays (l : list PlayCall) (b : Browser) : Browser :=
  {| timers := timers b; nextTimer := nextTimer b; clock := clock b;
     stored_history := stored_history b; storage_writable := storage_writable b;
     requests := requests b; plays := l |}.

Definition set_hidden (b : bool) (e : Element) : Element :=
  {| hidden := b; disabled := disabled e; textContent := textContent e;
     value := value e; width := width e; valuenow := valuenow e |}.
Definition set_disabled (b : bool) (e : Element) : Element :=
  {| hidden := hidden e; disabled := b; textContent := textContent e;
     value := value e; width := width e; valuenow := valuenow e |}.
Definition set_textContent (s : jsstring) (e : Element) : Element :=
  {| hidden := hidden e; disabled := disabled e; textContent := s;
     value := value e; width := width e; valuenow := valuenow e |}.
Definition set_value (s : jsstring) (e : Element) : Element :=
  {| hidden := hidden e; disabled := disabled e; textContent := textContent e;
     value := s; width := width e; valuenow := valuenow e |}.
Definition set_percent (n : N) (e : Element) : Element :=
  {| hidden := hidden e; disabled := disabled e; textContent := textContent e;
     value := value e; width := Some n; valuenow := Some n |}.

(** *** DOM primitives *)

(** [document.getElementById(i)]. *)
Definition getElementById (i : string) (st : State) : option Element :=
  elems (page st) !! i.

(** [if (el)]. *)
Definition present (i : string) (st : State) : bool :=
  bool_decide (is_Some (getElementById i st)).

(** A property write on the element [i].  Where the page has no such
    element there is nothing to write to: that is the guard [if (el)] of
    the optional elements (the mandatory ones are taken to exist). *)
Definition on_element (i : string) (f : Element -> Element) (st : State) : State :=
  upd_page (fun p => set_elems (alter f i (elems p)) p) st.

Definition hide (i : string) : State -> State := on_element i (set_hidden true).
Definition unhide (i : string) : State -> State := on_element i (set_hidden false).
Definition enable (i : string) : State -> State := on_element i (set_disabled false).
Definition disable (i : string) : State -> State := on_element i (set_disabled true).
Definition write_text (i : string) (s : jsstring) : State -> State :=
  on_element i (set_textContent s).
Definition write_value (i : string) (s : jsstring) : State -> State :=
  on_element i (set_value s).

(** [el.value] of an input, the empty string when the element is missing. *)
Definition read_value (i : string) (st : State) : jsstring :=
  default [] (value <$> getElementById i st).

(** Is the element there and shown (no [hidden] attribute)? *)
Definition visible (i : string) (st : State) : bool :=
  match getElementById i st with
  | Some e => negb (hidden e)
  | None => false
  end.

(** Is the element there and carrying the [hidden] attribute? *)
Definition concealed (i : string) (st : State) : bool :=
  match getElementById i st with
  | Some e => hidden e
  | None => false
  end.

(** *** The audio element *)

Definition on_audio (f : Audio -> Audio) (st : State) : State :=
  upd_page (fun p => set_audioPlayer (f (audioPlayer p)) p) st.

(** [audioPlayer.src = u].  Assigning a source makes the element load it
    anew (the media element load algorithm): what was playing is dropped,
    the element is paused and its position is back at 0. *)
Definition audio_set_src (u : option jsstring) : State -> State :=
  on_audio (fun a => {| src := u; audio_hidden := audio_hidden a;
                        currentTime := 0; paused := true |}).
(** [audioPlayer.removeAttribute("src")]: the attribute goes, nothing is
    loaded and the playback state is not touched. *)
Definition audio_remove_src : State -> State :=
  on_audio (fun a => {| src := None; audio_hidden := audio_hidden a;
                        currentTime := currentTime a; paused := paused a |}).
Definition audio_set_hidden (b : bool) : State -> State :=
  on_audio (fun a => {| src := src a; audio_hidden := b;
                        currentTime := currentTime a; paused := paused a |}).
Definition audio_set_currentTime (t : Q) : State -> State :=
  on_audio (fun a => {| src := src a; audio_hidden := audio_hidden a;
                        currentTime := t; paused := paused a |}).
Definition audio_set_paused (b : bool) : State -> State :=
  on_audio (fun a => {| src := src a; audio_hidden := audio_hidden a;
                        currentTime := currentTime a; paused := b |}).

(** [audioPlayer.pause()]. *)
Definition audio_pause : State -> State := audio_set_paused true.

(** [audioPlayer.play()]: the element leaves the paused state, and the
    call is logged with what it starts from. *)
Definition audio_play (st : State) : State :=
  let call := {| play_src := src (audioPlayer (page st));
                 play_at := currentTime (audioPlayer (page st));
                 play_flag := isPlayingInterruptReply (vars st) |} in
  upd_browser (fun b => set_plays (call :: plays b) b) (audio_set_paused false st).

(** *** Timers and requests *)

(** [setTimeout(callback, delay)]: returns the handle with the new state. *)
Definition setTimeout (act : TimerAction) (delay : N) (st : State) : nat * State :=
  let h := nextTimer (browser st) in
  (h, upd_browser (fun b =>
        set_timers (<[h := {| due := (clock b + delay)%N; action := act |}]> (timers b))
                   (S h) b) st).

(** [clearTimeout(h)]. *)
Definition clearTimeout (h : nat) (st : State) : State :=
  upd_browser (fun b => set_timers (delete h (timers b)) (nextTimer b) b) st.

(** [progressTimeouts.push(h)]. *)
Definition push_timeout (h : nat) : State -> State :=
  upd_vars (fun v => set_progressTimeouts (progressTimeouts v ++ [h]) v).

(** [progressTimeouts.forEach(clearTimeout); progressTimeouts = []]. *)
Definition clear_progressTimeouts (st : State) : State :=
  upd_vars (set_progressTimeouts [])
           (foldl (fun s h => clearTimeout h s) st (progressTimeouts (vars st))).

(** [fetch(...)]. *)
Definition fetch (r : Request) : State -> State :=
  upd_browser (fun b => set_requests (r :: requests b) b).

(** ** The handlers of the page script *)

Definition HISTORY_CAP : nat := 50.
Definition STAGED_DURATION_MS : N := 2400.
Definition CHAT_STAGGER_MS : N := 800.
Definition PROGRESS_TRANSITION_MS : N := 2000.

Definition showError (msg : jsstring) (st : State) : State :=
  let st := write_text "error-message" msg st in
  let st := unhide "error-panel" st in
  let st := hide "result-panel" st in
  let st := hide "progress-section" st in
  let st := unhide "submit-btn" st in
  let st := enable "submit-btn" st in
  let st := enable "generate-episode-btn" st in
  clear_progressTimeouts st.

Definition hideError : State -> State := hide "error-panel".

Definition setProgress (percent : N) (statusText : jsstring) (st : State) : State :=
  let st := on_element "progress-bar" (set_percent percent) st in
  write_text "progress-status" statusText st.

(** The [forEach] at the end of the transition callback of [showResult]:
    one tracked timer per script line, [i * CHAT_STAGGER_MS] from now. *)
Fixpoint schedule_rows (lines : list ScriptLine) (i : N) (st : State) : State :=
  match lines with
  | [] => st
  | line :: rest =>
      let '(h, st) := setTimeout (AppendChatRow line) (i * CHAT_STAGGER_MS) st in
      schedule_rows rest (i + 1) (push_timeout h st)
  end.

Definition nonempty_script (o : option (list ScriptLine)) : bool :=
  match o with Some (_ :: _) => true | _ => false end.

(** The callback [showResult] hands to [setTimeout]. *)
Definition showResult_transition (script : list ScriptLine)
    (audioUrl episodeTitle : option jsstring) (st : State) : State :=
  let st := hide "progress-section" st in
  let st := unhide "submit-btn" st in
  let st := enable "submit-btn" st in
  let st := enable "generate-episode-btn" st in
  let st := hide "error-panel" st in
  let st := unhide "result-panel" st in
  let st :=
    match episodeTitle with
    | Some t =>
        if truthy t
        then unhide "result-episode-title"
               (write_text "result-episode-title" (lit "Episode: " ++ t) st)
        else hide "result-episode-title" st
    | None => hide "result-episode-title" st
    end in
  let st := upd_page (set_scriptContent []) st in
  let st :=
    if truthy_opt audioUrl then
      let st := audio_set_src audioUrl st in
      let st := audio_set_hidden false st in
      if present "interrupt-block" st && nonempty_script (currentEpisodeScript (vars st))
      then
        let st := unhide "interrupt-block" st in
        let st := hide "interrupt-ask-form" st in
        unhide "interrupt-btn" st
      else hide "interrupt-block" st
    else
      let st := audio_remove_src st in
      let st := audio_set_hidden true st in
      hide "interrupt-block" st in
  let st := upd_vars (set_savedResumeTime 0) st in
  let st := upd_vars (set_isPlayingInterruptReply false) st in
  schedule_rows script 0 st.

(** [showResult(script, audioUrl, episodeTitle)].  The transition timer is
    started with [setTimeout] and its handle is dropped. *)
Definition showResult (script : list ScriptLine) (audioUrl episodeTitle : option jsstring)
    (st : State) : State :=
  let st := clear_progressTimeouts st in
  let st := setProgress 100 (lit "Ready!") st in
  let st := write_text "progress-status" (lit "Ready!") st in
  let st := upd_vars (set_result (Some script) (or_null audioUrl)) st in
  snd (setTimeout (ResultTransition script audioUrl episodeTitle)
                  PROGRESS_TRANSITION_MS st).

(** The stagger callback: one chat bubble appended to [#script-content]. *)
Definition appendChatRow (line : ScriptLine) (st : State) : State :=
  let isHostA := bool_decide (speaker line = lit "Host A") in
  let row := {| host_a := isHostA; row_speaker := escapeHtml (speaker line);
                row_text := escapeHtml (text line) |} in
  upd_page (fun p => set_scriptContent (scriptContent p ++ [row]) p) st.

(** *** History *)

Definition getHistory (st : State) : list HistoryEntry :=
  default [] (stored_history (browser st)).

(** [saveHistory(list)]: a write that localStorage refuses is swallowed. *)
Definition saveHistory (l : list HistoryEntry) (st : State) : State :=
  if storage_writable (browser st)
  then upd_browser (set_stored_history (Some l)) st
  else st.

Definition render_entry (item : HistoryEntry) : HistoryItem :=
  {| historyId := Number_toString (entry_id item);
     item_name := escapeHtml (or_else (Some (entry_name item)) (lit "Untitled"));
     item_date := escapeHtml (or_else (Some (date item)) []) |}.

(** [renderHistory()]; [historyEmpty.style.display = "none"] is recorded
    as the element being hidden. *)
Definition renderHistory (st : State) : State :=
  let l := getHistory st in
  let st := upd_page (set_historyList []) st in
  let st := on_element "history-empty"
              (set_hidden (match l with [] => false | _ => true end)) st in
  upd_page (set_historyList (render_entry <$> l)) st.

Definition removeFromHistory (i : N) (st : State) : State :=
  let l := filter (fun item => entry_id item ≠ i) (getHistory st) in
  renderHistory (saveHistory l st).

(** The entry [addToHistory] builds, and the list it hands to
    [saveHistory]: the new entry in front ([unshift]), cut to the first
    50. *)
Definition new_entry (filename today : jsstring) (now : N) : HistoryEntry :=
  {| entry_id := now;
     entry_name := or_else (Some (formatFileName filename)) (lit "Untitled");
     fullName := filename; date := today |}.

Definition history_after_add (filename today : jsstring) (now : N)
    (l : list HistoryEntry) : list HistoryEntry :=
  let l := new_entry filename today now :: l in
  if (HISTORY_CAP <? length l)%nat then take HISTORY_CAP l else l.

(** [addToHistory(filename)]; [today] is what [toLocaleDateString] gives
    for the current date in the user's locale. *)
Definition addToHistory (filename today : jsstring) (st : State) : State :=
  let l := history_after_add filename today (clock (browser st)) (getHistory st) in
  renderHistory (saveHistory l st).

(** *** Episodes *)

Definition episode_label (ep : Episode) : jsstring :=
  or_else (ep_title ep) (lit "Episode " ++ Number_toString (ep_id ep)).

Definition renderEpisodeList (episodes : list Episode) (st : State) : State :=
  if negb (present "episode-list" st) then st
  else
    upd_page (set_episodeList
      ((fun ep => {| episodeId := Number_toString (ep_id ep);
                     episodeTitle := episode_label ep;
                     item_text := episode_label ep;
                     is_selected := false |}) <$> episodes)) st.

Definition onEpisodeSelected (eid etitle : jsstring) (st : State) : State :=
  let st := upd_vars (set_selection (Some eid) (Some etitle)) st in
  let st :=
    if present "episode-selected-block" st
    then write_value "episode-prompt" [] (unhide "episode-selected-block" st)
    else st in
  if present "episode-list" st then
    upd_page (fun p => set_episodeList
      ((fun el => {| episodeId := episodeId el; episodeTitle := episodeTitle el;
                     item_text := item_text el;
                     is_selected := bool_decide (episodeId el = eid) |})
         <$> episodeList p) p) st
  else st.

(** *** Interrupt and resume *)

Definition resumeMainAudio (st : State) : State :=
  let st := upd_vars (set_isPlayingInterruptReply false) st in
  let st := hide "interrupt-ask-form" st in
  let st := unhide "interrupt-btn" st in
  let st := write_value "interrupt-question" [] st in
  if truthy_opt (currentMainAudioUrl (vars st)) then
    let st := audio_set_src (currentMainAudioUrl (vars st)) st in
    let st := audio_set_currentTime (savedResumeTime (vars st)) st in
    audio_play st
  else st.

(** The [ended] listener of the audio element. *)
Definition on_ended (st : State) : State :=
  if isPlayingInterruptReply (vars st) then resumeMainAudio st else st.

(** The click listener of the interrupt button. *)
Definition on_interrupt_click (st : State) : State :=
  if negb (present "interrupt-btn" st) then st
  else if negb (bool_decide (is_Some (currentEpisodeScript (vars st))))
          || negb (truthy_opt (currentMainAudioUrl (vars st))) then st
  else
    let st := audio_pause st in
    let st := upd_vars (set_savedResumeTime (currentTime (audioPlayer (page st)))) st in
    let st := unhide "interrupt-ask-form" st in
    hide "interrupt-btn" st.

(** *** Requests and their answers *)

(** The JSON bodies of the answers, with the fields the script reads; a
    body that is not JSON is the empty object (every field missing). *)
Record ParseData := mkParseData {
  parse_error : option jsstring;
  parse_upload_id : option jsstring;
  parse_episodes : option (list Episode) }.

Record ResultData := mkResultData {
  result_error : option jsstring;
  result_script : option (list ScriptLine);
  result_audio_url : option jsstring }.

Record AskData := mkAskData {
  ask_error : option jsstring;
  ask_audio_url : option jsstring }.

Definition msg_generic : jsstring := lit "Something went wrong.".
Definition msg_network : jsstring := lit "Network error. Please try again.".

(** The [submit] listener of the upload form. *)
Definition on_form_submit (st : State) : State :=
  match validateFile (files0 (page st)) with
  | Some err => showError err st
  | None =>
      let st := hideError st in
      let st := hide "submit-btn" st in
      let st := unhide "progress-section" st in
      let st := setProgress 20 (lit "Extracting text from eBook...") st in
      fetch (PostParse (files0 (page st)) (read_value "setting-language" st)
                       (read_value "setting-vibe" st)) st
  end.

(** The answer of [/api/parse]; [ok] is [res.ok]. *)
Definition on_parse_response (ok : bool) (data : ParseData) (today : jsstring)
    (st : State) : State :=
  let st := hide "progress-section" st in
  let st := unhide "submit-btn" st in
  let st := enable "submit-btn" st in
  if negb ok then showError (or_else (parse_error data) msg_generic) st
  else
    let st := upd_vars (set_session (or_null (parse_upload_id data))
                                     (default [] (parse_episodes data))) st in
    let st := upd_vars (set_selection None None) st in
    let st := hide "episode-selected-block" st in
    let st := renderEpisodeList (currentEpisodes (vars st)) st in
    let st := unhide "episode-explorer" st in
    match files0 (page st) with
    | Some file => if truthy (name file) then addToHistory (name file) today st else st
    | None => st
    end.

(** The [catch] of the parse request. *)
Definition on_parse_network_error (st : State) : State :=
  let st := showError msg_network st in
  let st := hide "progress-section" st in
  let st := unhide "submit-btn" st in
  enable "submit-btn" st.

(** Click or Enter/Space on the [k]-th child of the episode list. *)
Definition on_episode_activate (k : nat) (st : State) : State :=
  if negb (present "episode-list" st) then st
  else match episodeList (page st) !! k with
       | None => st
       | Some item =>
           onEpisodeSelected (episodeId item) (or_else (Some (episodeTitle item)) []) st
       end.

(** The click listener of the generate button. *)
Definition on_generate_click (st : State) : State :=
  if negb (present "generate-episode-btn" st) then st
  else
    match currentUploadId (vars st), selectedEpisodeId (vars st) with
    | Some uid, Some eid =>
        if negb (truthy uid) then showError (lit "Please select an episode first.") st
        else
          let st := hideError st in
          let st := disable "generate-episode-btn" st in
          let st := unhide "progress-section" st in
          let st := setProgress 30 (lit "Generating episode...") st in
          let prompt :=
            if truthy (read_value "episode-prompt" st)
            then trim (read_value "episode-prompt" st) else [] in
          fetch (PostGenerateEpisode uid eid prompt) st
    | _, _ => showError (lit "Please select an episode first.") st
    end.

Definition on_generate_response (ok : bool) (data : ResultData) (st : State) : State :=
  if negb ok then
    let st := showError (or_else (result_error data) msg_generic) st in
    let st := enable "generate-episode-btn" st in
    hide "progress-section" st
  else
    showResult (default [] (result_script data)) (result_audio_url data)
               (selectedEpisodeTitle (vars st)) st.

Definition on_generate_network_error (st : State) : State :=
  let st := showError msg_network st in
  let st := enable "generate-episode-btn" st in
  hide "progress-section" st.

(** The demo button. *)
Definition on_demo_click (st : State) : State :=
  if negb (present "try-demo-btn" st) then st
  else
    let st := hideError st in
    let st := disable "try-demo-btn" st in
    let st := unhide "progress-section" st in
    let st := setProgress 20 (lit "Preparing demo...") st in
    fetch PostDemoEpisode st.

Definition on_demo_response (ok : bool) (data : ResultData) (st : State) : State :=
  let st := enable "try-demo-btn" st in
  let st := hide "progress-section" st in
  if negb ok then
    showError (or_else (result_error data)
                 (lit "Demo failed. Check that ffmpeg is installed.")) st
  else
    showResult (default [] (result_script data)) (result_audio_url data)
               (Some (lit "Demo")) st.

Definition on_demo_network_error (st : State) : State :=
  let st := showError msg_network st in
  let st := enable "try-demo-btn" st in
  hide "progress-section" st.

(** The click listener of the ask button; it is registered only when the
    button and the question input both exist. *)
Definition on_ask_submit (st : State) : State :=
  if negb (present "interrupt-ask-submit" st && present "interrupt-question" st) then st
  else
    let question := trim (read_value "interrupt-question" st) in
    if negb (truthy question) then st
    else
      match currentEpisodeScript (vars st) with
      | Some (l :: ls) =>
          let st := disable "interrupt-ask-submit" st in
          fetch (PostAskHosts question (l :: ls)) st
      | _ => showError (lit "No episode script available.") st
      end.

(** The answer of [/api/ask_hosts]. *)
Definition on_ask_response (ok : bool) (data : AskData) (st : State) : State :=
  let st := enable "interrupt-ask-submit" st in
  if negb ok then
    let st := showError (or_else (ask_error data) msg_generic) st in
    let st := unhide "interrupt-btn" st in
    hide "interrupt-ask-form" st
  else
    if truthy_opt (ask_audio_url data) then
      let st := upd_vars (set_isPlayingInterruptReply true) st in
      let st := audio_set_src (ask_audio_url data) st in
      audio_play st
    else
      let st := unhide "interrupt-btn" st in
      hide "interrupt-ask-form" st.

(** The [catch] of the ask request. *)
Definition on_ask_network_error (st : State) : State :=
  let st := enable "interrupt-ask-submit" st in
  let st := showError msg_network st in
  let st := unhide "interrupt-btn" st in
  hide "interrupt-ask-form" st.

(** The rejection handler of [play()] for the answer clip. *)
Definition on_answer_play_rejected (st : State) : State :=
  let st := upd_vars (set_isPlayingInterruptReply false) st in
  resumeMainAudio st.

(** *** Timers firing *)

Definition run_timer (act : TimerAction) (st : State) : State :=
  match act with
  | ResultTransition script audioUrl episodeTitle =>
      showResult_transition script audioUrl episodeTitle st
  | AppendChatRow line => appendChatRow line st
  | StagedNext _ | LegacyTransition _ _ => st
  end.

(** A pending timer whose delay has passed runs once and is gone. *)
Definition fire (run : TimerAction -> State -> State) (h : nat) (st : State) : State :=
  match timers (browser st) !! h with
  | Some t =>
      if (due t <=? clock (browser st))%N
      then run (action t) (clearTimeout h st)
      else st
  | None => st
  end.

(** ** Events *)

Inductive Event :=
  (* the user *)
  | ChooseFile (f : option File)
  | FormSubmit
  | EpisodeActivate (k : nat)
  | TypePrompt (s : jsstring)
  | GenerateClick
  | DemoClick
  | DismissError
  | InterruptClick
  | TypeQuestion (s : jsstring)
  | AskSubmit
  | HistoryDelete (i : N)
  (* the audio element *)
  | Playing (t : Q)
  | Ended
  | AnswerPlayRejected
  (* the network *)
  | ParseResponse (ok : bool) (data : ParseData) (today : jsstring)
  | ParseNetworkError
  | GenerateResponse (ok : bool) (data : ResultData)
  | GenerateNetworkError
  | DemoResponse (ok : bool) (data : ResultData)
  | DemoNetworkError
  | AskResponse (ok : bool) (data : AskData)
  | AskNetworkError
  (* time *)
  | Elapse (ms : N)
  | TimerFired (h : nat).

Definition step (ev : Event) (st : State) : State :=
  match ev with
  | ChooseFile f => upd_page (set_files0 f) st
  | FormSubmit => on_form_submit st
  | EpisodeActivate k => on_episode_activate k st
  | TypePrompt s => write_value "episode-prompt" s st
  | GenerateClick => on_generate_click st
  | DemoClick => on_demo_click st
  | DismissError => hideError st
  | InterruptClick => on_interrupt_click st
  | TypeQuestion s => write_value "interrupt-question" s st
  | AskSubmit => on_ask_submit st
  | HistoryDelete i => removeFromHistory i st
  | Playing t => audio_set_currentTime t (audio_set_paused false st)
  | Ended => on_ended st
  | AnswerPlayRejected => on_answer_play_rejected st
  | ParseResponse ok data today => on_parse_response ok data today st
  | ParseNetworkError => on_parse_network_error st
  | GenerateResponse ok data => on_generate_response ok data st
  | GenerateNetworkError => on_generate_network_error st
  | DemoResponse ok data => on_demo_response ok data st
  | DemoNetworkError => on_demo_network_error st
  | AskResponse ok data => on_ask_response ok data st
  | AskNetworkError => on_ask_network_error st
  | Elapse ms => upd_browser (fun b => set_clock (clock b + ms)%N b) st
  | TimerFired h => fire run_timer h st
  end.

(** A run of the page: the events are handled one after the other. *)
Definition run (evs : list Event) (st : State) : State :=
  foldl (fun s ev => step ev s) st evs.

(** ** The staged-progress script ([static/script.js])

    The older script has no episodes and no interrupt; it posts the file
    to [/api/generate-podcast] and shows the result directly.  Its
    [validateFile], [formatFileName], [getHistory], [saveHistory] and
    [addToHistory] are the functions above, word for word. *)
Module Legacy.

Definition STAGED_MESSAGES : list (N * jsstring) :=
  [ (30%N, lit "Extracting text from eBook...");
    (70%N, lit "AI Hosts analyzing narrative and drafting script...");
    (95%N, lit "Synthesizing neural voices...");
    (100%N, lit "Ready!") ].

Definition showError (msg : jsstring) (st : State) : State :=
  let st := write_text "error-message" msg st in
  let st := unhide "error-panel" st in
  let st := hide "result-panel" st in
  let st := hide "progress-section" st in
  let st := unhide "submit-btn" st in
  let st := enable "submit-btn" st in
  clear_progressTimeouts st.

(** [next] of [runStagedProgress], entered with [stage] at the given
    value; the script never passes an [onComplete]. *)
Definition next (stage : nat) (st : State) : State :=
  match STAGED_MESSAGES !! stage with
  | None => st
  | Some (w, t) =>
      let st := setProgress w t st in
      let '(h, st) := setTimeout (StagedNext (S stage)) STAGED_DURATION_MS st in
      push_timeout h st
  end.

Definition runStagedProgress : State -> State := next 0.

Definition showResult_transition (script : list ScriptLine) (audioUrl : option jsstring)
    (st : State) : State :=
  let st := hide "progress-section" st in
  let st := unhide "submit-btn" st in
  let st := enable "submit-btn" st in
  let st := hide "error-panel" st in
  let st := unhide "result-panel" st in
  let st := upd_page (set_scriptContent []) st in
  let st :=
    if truthy_opt audioUrl
    then audio_set_hidden false (audio_set_src audioUrl st)
    else audio_set_hidden true (audio_remove_src st) in
  schedule_rows script 0 st.

Definition showResult (script : list ScriptLine) (audioUrl : option jsstring)
    (st : State) : State :=
  let st := clear_progressTimeouts st in
  let st := setProgress 100 (lit "Ready!") st in
  let st := write_text "progress-status" (lit "Ready!") st in
  snd (setTimeout (LegacyTransition script audioUrl) PROGRESS_TRANSITION_MS st).

(** The history list of the older page has no delete button and no
    [data-history-id]. *)
Definition renderHistory (st : State) : State :=
  let l := getHistory st in
  let st := on_element "history-empty"
              (set_hidden (match l with [] => false | _ => true end)) st in
  upd_page (set_historyList
    ((fun item => {| historyId := []; item_name := item_name (render_entry item);
                     item_date := item_date (render_entry item) |}) <$> l)) st.

Definition addToHistory (filename today : jsstring) (st : State) : State :=
  let l := history_after_add filename today (clock (browser st)) (getHistory st) in
  renderHistory (saveHistory l st).

Definition on_form_submit (st : State) : State :=
  match validateFile (files0 (page st)) with
  | Some err => showError err st
  | None =>
      let st := hideError st in
      let st := hide "submit-btn" st in
      let st := unhide "progress-section" st in
      let st := setProgress 0 (lit "Extracting text from eBook...") st in
      let st := runStagedProgress st in
      fetch (PostGeneratePodcast (files0 (page st)) (read_value "setting-language" st)
                                 (read_value "setting-vibe" st)) st
  end.

Definition on_podcast_response (ok : bool) (data : ResultData) (today : jsstring)
    (st : State) : State :=
  if negb ok then showError (or_else (result_error data) msg_generic) st
  else
    let st :=
      match files0 (page st) with
      | Some file => if truthy (name file) then addToHistory (name file) today st else st
      | None => st
      end in
    showResult (default [] (result_script data)) (result_audio_url data) st.

Definition on_podcast_network_error : State -> State := showError msg_network.

Definition run_timer (act : TimerAction) (st : State) : State :=
  match act with
  | StagedNext stage => next stage st
  | LegacyTransition script audioUrl => showResult_transition script audioUrl st
  | AppendChatRow line => appendChatRow line st
  | ResultTransition _ _ _ => st
  end.

Inductive Event :=
  | ChooseFile (f : option File)
  | FormSubmit
  | DismissError
  | PodcastResponse (ok : bool) (data : ResultData) (today : jsstring)
  | PodcastNetworkError
  | Elapse (ms : N)
  | TimerFired (h : nat).

Definition step (ev : Event) (st : State) : State :=
  match ev with
  | ChooseFile f => upd_page (set_files0 f) st
  | FormSubmit => on_form_submit st
  | DismissError => hideError st
  | PodcastResponse ok data today => on_podcast_response ok data today st
  | PodcastNetworkError => on_podcast_network_error st
  | Elapse ms => upd_browser (fun b => set_clock (clock b + ms)%N b) st
  | TimerFired h => fire run_timer h st
  end.

Definition run (evs : list Event) (st : State) : State :=
  foldl (fun s ev => step ev s) st evs.

End Legacy.

(** ** The page as it is loaded *)

(** The variables as the script initialises them. *)
Definition initial_vars : Vars :=
  {| currentUploadId := None; currentEpisodes := []; selectedEpisodeId := None;
     selectedEpisodeTitle := None; currentEpisodeScript := None;
     currentMainAudioUrl := None; savedResumeTime := 0;
     isPlayingInterruptReply := false; progressTimeouts := [] |}.

Definition shown : Element :=
  {| hidden := false; disabled := false; textContent := []; value := [];
     width := None; valuenow := None |}.
Definition not_shown : Element := set_hidden true shown.

(** Modelled from the spec: the markup of the page (the HTML that carries
    the element ids) is not among the sources.  This is a page with every
    element the script looks up, where the panels that the script reveals
    on demand (progress, error, result, episode explorer, interrupt block,
    ask form) start hidden.  Only the scenario runs start from it; the
    theorems are stated for an arbitrary page. *)
Definition initial_page : Page :=
  {| elems := list_to_map
       [ ("submit-btn", shown); ("progress-section", not_shown);
         ("progress-bar", shown); ("progress-status", shown);
         ("error-panel", not_shown); ("error-message", shown);
         ("result-panel", not_shown); ("result-episode-title", not_shown);
         ("history-empty", shown);
         ("episode-explorer", not_shown); ("episode-list", shown);
         ("episode-selected-block", not_shown); ("episode-prompt", shown);
         ("generate-episode-btn", shown);
         ("interrupt-block", not_shown); ("interrupt-btn", shown);
         ("interrupt-ask-form", not_shown); ("interrupt-question", shown);
         ("interrupt-ask-submit", shown); ("try-demo-btn", shown);
         ("setting-language", set_value (lit "en") shown);
         ("setting-vibe", set_value (lit "casual") shown) ];
     audioPlayer := {| src := None; audio_hidden := true; currentTime := 0;
                       paused := true |};
     scriptContent := []; episodeList := []; historyList := []; files0 := None |}.

Definition initial_browser : Browser :=
  {| timers := ∅; nextTimer := 0; clock := 0; stored_history := None;
     storage_writable := true; requests := []; plays := [] |}.

Definition initial : State :=
  {| vars := initial_vars; page := initial_page; browser := initial_browser |}.


(** ** Scenarios

    Concrete runs of the page, used to exhibit behaviour on explicit
    inputs. *)

Definition book : File := {| name := lit "Book.PDF"; size := 1048576 |}.

Definition two_lines : list ScriptLine :=
  [ {| speaker := lit "Host A"; text := lit "Welcome back." |};
    {| speaker := lit "Host B"; text := lit "Glad to be here." |} ].

Definition main_url : jsstring := lit "/audio/episode-1.mp3".
Definition answer_url : jsstring := lit "/audio/answer.mp3".

Definition parsed : Event :=
  ParseResponse true
    {| parse_error := None; parse_upload_id := Some (lit "u1");
       parse_episodes := Some [ {| ep_id := 1; ep_title := Some (lit "Chapter 1") |} ] |}
    (lit "Nov 1, 2026").

Definition generated (url : option jsstring) : Event :=
  GenerateResponse true
    {| result_error := None; result_script := Some two_lines; result_audio_url := url |}.


(** A book is parsed, its episode is generated with audio and displayed,
    and the listener is 12.5 seconds into it. *)
Definition listening : list Event :=
  [ ChooseFile (Some book); FormSubmit; parsed; EpisodeActivate 0; GenerateClick;
    generated (Some main_url); Elapse 2000; TimerFired 0; TimerFired 1;
    Elapse 800; TimerFired 2; Playing 12.5 ].

(** The listener interrupts and sends a question. *)
Definition asking : list Event :=
  listening ++ [ InterruptClick; TypeQuestion (lit "Who is the narrator?"); AskSubmit ].


(** A result arrives; half a second later the form is submitted with no
    file chosen, which shows an error. *)
Definition error_during_transition : list Event :=
  [ ChooseFile (Some book); FormSubmit; parsed; EpisodeActivate 0; GenerateClick;
    generated (Some main_url); Elapse 500; ChooseFile None; FormSubmit ].

(** A history that is full. *)
Definition full_history : list HistoryEntry :=
  (fun k => {| entry_id := N.of_nat k; entry_name := lit "old.pdf";
               fullName := lit "old.pdf"; date := lit "Oct 1, 2026" |}) <$> seq 0 50.

Definition with_full_history : State :=
  upd_browser (set_stored_history (Some full_history)) initial.

(** ** Vocabulary of the statements *)

(** The messages shown for a failed request, by event. *)
Definition parse_failure (ev : Event) : option jsstring :=
  match ev with
  | ParseResponse false data _ => Some (or_else (parse_error data) msg_generic)
  | ParseNetworkError => Some msg_network
  | _ => None
  end.


Definition ask_failure (ev : Event) : option jsstring :=
  match ev with
  | AskResponse false data => Some (or_else (ask_error data) msg_generic)
  | AskNetworkError => Some msg_network
  | _ => None
  end.


(** The stored history respects the cap. *)
Definition history_bounded (st : State) : Prop :=
  length (getHistory st) <= HISTORY_CAP.

(** The session of the parse flow. *)
Definition session (st : State) :=
  (currentUploadId (vars st), currentEpisodes (vars st),
   selectedEpisodeId (vars st), selectedEpisodeTitle (vars st)).

(** The text of the error banner, if the page has one. *)
Definition error_text (st : State) : option jsstring :=
  textContent <$> getElementById "error-message" st.

(** ** The rest of the page script *)

(** What [formatFileName] keeps as the extension of a long name: the
    part from the last dot on, unless that dot opens the name. *)
Definition kept_extension (nm : jsstring) : jsstring :=
  if (0 <? lastIndexOf dot nm)%Z then slice_from (lastIndexOf dot nm) nm else [].

(** The chat bubble the stagger callback builds for a script line. *)
Definition chat_row (line : ScriptLine) : ChatRow :=
  {| host_a := bool_decide (speaker line = lit "Host A");
     row_speaker := escapeHtml (speaker line);
     row_text := escapeHtml (text line) |}.

(** The timers with the given handles fire one after the other. *)
Definition fire_all (hs : list nat) (st : State) : State :=
  foldl (fun s h => step (TimerFired h) s) st hs.

(** The history list on display shows what is stored. *)
Definition history_rendered (st : State) : Prop :=
  historyList (page st) = render_entry <$> getHistory st.

(** *** The label of the chosen file *)

(** [(file.size / (1024 * 1024)).toFixed(2)].  A size below 2^53 divided
    by 2^20 is exact in a double, and [toFixed(2)] picks the integer [n]
    with [n / 100] nearest to that quotient, the larger one on a tie:
    [hundredths] is that [n]. *)
Definition hundredths (sz : N) : N := ((200 * sz + 1048576) / 2097152)%N.

Definition two_digits (n : N) : jsstring :=
  if (n <? 10)%N then lit "0" ++ Number_toString n else Number_toString n.

Definition sizeMb (sz : N) : jsstring :=
  Number_toString (hundredths sz / 100) ++ lit "." ++ two_digits (hundredths sz mod 100).

Definition middle_dot : jsstring := [183%N].

(** What the [change] listener of the file input leaves on display:
    [selectedFilename.textContent], whether [selectedFileDisplay] carries
    the class [is-visible], and [labelText.textContent]. *)
Record FileDisplay := mkFileDisplay {
  selectedFilename : jsstring; is_visible : bool; labelText : jsstring }.

Definition on_file_change (file0 : option File) : FileDisplay :=
  match file0 with
  | Some file =>
      {| selectedFilename :=
           formatFileName (name file) ++ lit " " ++ middle_dot ++ lit " "
             ++ sizeMb (size file) ++ lit " MB";
         is_visible := true;
         labelText := lit "Change file" |}
  | None =>
      {| selectedFilename := []; is_visible := false;
         labelText := lit "Choose PDF or EPUB" |}
  end.

(** *** The theme toggle *)
Module Theme.

(** [data-theme] of the document element ([None]: no such attribute), the
    [auracast-theme] item of localStorage, and whether localStorage
    accepts writes. *)
Record ThemeState := mkTheme {
  data_theme : option jsstring;
  stored_theme : option jsstring;
  theme_writable : bool }.

Definition setTheme (theme : jsstring) (t : ThemeState) : ThemeState :=
  {| data_theme := Some theme;
     stored_theme := if theme_writable t then Some theme else stored_theme t;
     theme_writable := theme_writable t |}.

(** The click listener of the theme toggle. *)
Definition on_toggle (t : ThemeState) : ThemeState :=
  let next := if bool_decide (data_theme t = Some (lit "light")) then [] else lit "light" in
  setTheme next t.

(** The start-up block: only a stored "light" is applied. *)
Definition on_load (t : ThemeState) : ThemeState :=
  if bool_decide (stored_theme t = Some (lit "light")) then setTheme (lit "light") t else t.

(** A fresh load of the page: the attribute is what the markup gives it,
    storage is what the last visit left, then the start-up block runs. *)
Definition reload (markup : option jsstring) (t : ThemeState) : ThemeState :=
  on_load {| data_theme := markup; stored_theme := stored_theme t;
             theme_writable := theme_writable t |}.

Definition is_light (t : ThemeState) : bool :=
  bool_decide (data_theme t = Some (lit "light")).

End Theme.

(** *** The first script: a strip of processing states

    The oldest of the three scripts shows the state reported by the
    server on a strip of steps and renders the script at once. *)
Module Phase1.

Definition STATES : list jsstring :=
  [ lit "uploading"; lit "parsing"; lit "generating_script"; lit "synthesizing";
    lit "ready" ].

(** [arr.indexOf(x)], [-1] when [x] is not in the array. *)
Fixpoint indexOf_from (x : jsstring) (arr : list jsstring) (i : Z) : Z :=
  match arr with
  | [] => (-1)%Z
  | y :: arr' => if bool_decide (y = x) then i else indexOf_from x arr' (i + 1)%Z
  end.

Definition indexOf (x : jsstring) (arr : list jsstring) : Z := indexOf_from x arr 0%Z.

(** A [.state-step] element: its [data-step] and whether it carries the
    classes [active] and [done]. *)
Record StepEl := mkStep { data_step : jsstring; is_active : bool; is_done : bool }.

(** One of the JSON values the script tells apart for [audio_url]. *)
Inductive AudioUrl := Undefined | Null | Url (u : jsstring).

Record PodcastData := mkPodcastData {
  pd_error : option jsstring;
  pd_state : option jsstring;
  pd_message : option jsstring;
  pd_script : option (list ScriptLine);
  pd_audio_url : AudioUrl }.

(** A rendered [.script-line]: the host class and the two escaped texts. *)
Record ScriptLineEl := mkScriptLineEl {
  line_host_a : bool; line_speaker : jsstring; line_text : jsstring }.

Record PageState := mkPageState {
  strip_hidden : bool;
  strip_state : jsstring;
  state_message : jsstring;
  steps : list StepEl;
  error_hidden : bool;
  error_message : jsstring;
  result_hidden : bool;
  submit_disabled : bool;
  audio_src : option jsstring;
  audio_concealed : bool;
  script_lines : list ScriptLineEl;
  chosen : option File;
  sent : list (option File) }.

Definition mark (state : jsstring) (el : StepEl) : StepEl :=
  let idx := indexOf state STATES in
  let stepIdx := indexOf (data_step el) STATES in
  if (stepIdx <? idx)%Z
  then {| data_step := data_step el; is_active := false; is_done := true |}
  else if bool_decide (data_step el = state)
  then {| data_step := data_step el; is_active := true; is_done := false |}
  else {| data_step := data_step el; is_active := false; is_done := false |}.

Definition setState (state message : jsstring) (p : PageState) : PageState :=
  {| strip_hidden := false; strip_state := state; state_message := message;
     steps := mark state <$> steps p;
     error_hidden := error_hidden p; error_message := error_message p;
     result_hidden := result_hidden p; submit_disabled := submit_disabled p;
     audio_src := audio_src p; audio_concealed := audio_concealed p;
     script_lines := script_lines p; chosen := chosen p; sent := sent p |}.

Definition showError (msg : jsstring) (p : PageState) : PageState :=
  let p := setState (lit "error") [] p in
  {| strip_hidden := strip_hidden p; strip_state := strip_state p;
     state_message := state_message p; steps := steps p;
     error_hidden := false; error_message := msg;
     result_hidden := true; submit_disabled := submit_disabled p;
     audio_src := audio_src p; audio_concealed := audio_concealed p;
     script_lines := script_lines p; chosen := chosen p; sent := sent p |}.

Definition hideError (p : PageState) : PageState :=
  {| strip_hidden := strip_hidden p; strip_state := strip_state p;
     state_message := state_message p; steps := steps p;
     error_hidden := true; error_message := error_message p;
     result_hidden := result_hidden p; submit_disabled := submit_disabled p;
     audio_src := audio_src p; audio_concealed := audio_concealed p;
     script_lines := script_lines p; chosen := chosen p; sent := sent p |}.

Definition set_submit_disabled (b : bool) (p : PageState) : PageState :=
  {| strip_hidden := strip_hidden p; strip_state := strip_state p;
     state_message := state_message p; steps := steps p;
     error_hidden := error_hidden p; error_message := error_message p;
     result_hidden := result_hidden p; submit_disabled := b;
     audio_src := audio_src p; audio_concealed := audio_concealed p;
     script_lines := script_lines p; chosen := chosen p; sent := sent p |}.

Definition render_line (line : ScriptLine) : ScriptLineEl :=
  {| line_host_a := bool_decide (speaker line = lit "Host A");
     line_speaker := escapeHtml (speaker line);
     line_text := escapeHtml (text line) |}.

(** [showResult(script, audioUrl)]: everything is rendered at once. *)
Definition showResult (script : list ScriptLine) (audioUrl : option jsstring)
    (p : PageState) : PageState :=
  {| strip_hidden := true; strip_state := strip_state p;
     state_message := state_message p; steps := steps p;
     error_hidden := true; error_message := error_message p;
     result_hidden := false; submit_disabled := submit_disabled p;
     audio_src := if truthy_opt audioUrl then audioUrl else None;
     audio_concealed := negb (truthy_opt audioUrl);
     script_lines := render_line <$> script; chosen := chosen p; sent := sent p |}.

(** The synchronous part of the [submit] listener, up to the [await]. *)
Definition on_submit (p : PageState) : PageState :=
  match validateFile (chosen p) with
  | Some err => showError err p
  | None =>
      let p := hideError p in
      let p := set_submit_disabled true p in
      let p := setState (lit "uploading") (lit "Uploading your file" ++ ellipsis) p in
      {| strip_hidden := strip_hidden p; strip_state := strip_state p;
         state_message := state_message p; steps := steps p;
         error_hidden := error_hidden p; error_message := error_message p;
         result_hidden := result_hidden p; submit_disabled := submit_disabled p;
         audio_src := audio_src p; audio_concealed := audio_concealed p;
         script_lines := script_lines p; chosen := chosen p;
         sent := chosen p :: sent p |}
  end.

Definition url_or_null (a : AudioUrl) : option jsstring :=
  match a with Url u => if truthy u then Some u else None | _ => None end.

Definition url_value (a : AudioUrl) : option jsstring :=
  match a with Url u => Some u | _ => None end.

(** The rest of the listener once the answer is there: the [try] body,
    then [finally]. *)
Definition on_response (ok : bool) (data : PodcastData) (p : PageState) : PageState :=
  if negb ok then
    let p := showError (or_else (pd_error data) msg_generic) p in
    let p := set_submit_disabled false p in
    set_submit_disabled false p
  else
    let p :=
      if bool_decide (pd_state data = Some (lit "ready")) then
        showResult (default [] (pd_script data)) (url_or_null (pd_audio_url data)) p
      else
        let p := setState (or_else (pd_state data) (lit "ready"))
                          (or_else (pd_message data) []) p in
        match pd_script data, pd_audio_url data with
        | Some script, (Null | Url _) => showResult script (url_value (pd_audio_url data)) p
        | _, _ => p
        end in
    set_submit_disabled false p.

(** [catch], then [finally]. *)
Definition on_network_error (p : PageState) : PageState :=
  set_submit_disabled false (showError msg_network p).

(** A strip with one step per state, in order. *)
Definition fresh_steps : list StepEl :=
  (fun s => {| data_step := s; is_active := false; is_done := false |}) <$> STATES.

End Phase1.

(** * Properties *)

(** ** Strings and the extension check *)

Ltac cases_N :=
  repeat match goal with
  | |- context [(?a <=? ?b)%N] => destruct (N.leb_spec a b)
  | |- context [(?a =? ?b)%N] => destruct (N.eqb_spec a b)
  | H : context [(?a <=? ?b)%N] |- _ => destruct (N.leb_spec a b)
  | H : context [(?a =? ?b)%N] |- _ => destruct (N.eqb_spec a b)
  end; simpl in *; try lia.

Example split_keeps_empty_segments :
  split dot (lit "a.b..c.") = [lit "a"; lit "b"; []; lit "c"; []].
Proof. reflexivity. Qed.

Example split_of_empty_string : split dot [] = [[]].
Proof. reflexivity. Qed.

Example extension_of_archive : extension (lit "Notes.tar.EPUB") = lit "epub".
Proof. reflexivity. Qed.

Example trim_strips_both_ends : trim (lit "  who? ") = lit "who?".
Proof. reflexivity. Qed.

(** An integer below 2^53 is printed with its decimal digits. *)
Lemma Number_toString_safe_integer (n : N) :
  (n < 2 ^ 53)%N -> Number_toString n = decimal_digits n.
Proof.
  intros H. unfold Number_toString, nearest_double.
  now rewrite !(proj2 (N.ltb_lt _ _) H).
Qed.

(** Beyond that the number is the nearest double, and from 21 digits on
    it is printed in exponent form. *)
Example Number_toString_rounds_to_double :
  Number_toString 9007199254740993 = lit "9007199254740992" /\
  Number_toString (2 ^ 63) = lit "9223372036854776000".
Proof. split; vm_compute; reflexivity. Qed.

Example Number_toString_exponent_form :
  Number_toString (10 ^ 21) = lit "1e+21" /\
  Number_toString (2 ^ 70) = lit "1.1805916207174113e+21" /\
  Number_toString (10 ^ 21 - 1) = lit "1e+21" /\
  Number_toString (10 ^ 20) = lit "100000000000000000000".
Proof. repeat split; vm_compute; reflexivity. Qed.

Example formatFileName_short : formatFileName (lit "Book.PDF") = lit "Book.PDF".
Proof. reflexivity. Qed.

Example formatFileName_long :
  formatFileName (lit "a_very_long_file_name_that_goes_on_and_on.epub")
  = lit "a_very_long_file_name_th" ++ ellipsis ++ lit ".epub".
Proof. reflexivity. Qed.

Example validateFile_verdicts :
  validateFile None = Some msg_select_file /\
  validateFile (Some (mkFile (lit "Book.PDF") 52428800)) = None /\
  validateFile (Some (mkFile (lit "Book.PDF") 52428801)) = Some msg_too_large /\
  validateFile (Some (mkFile (lit "Book.docx") 10)) = Some msg_unsupported.
Proof. repeat split. Qed.

Lemma lower_unit_dot c : lower_unit c = dot <-> c = dot.
Proof. unfold lower_unit, dot. split; intros H; cases_N; subst; cases_N. Qed.

Lemma lower_unit_idem c : lower_unit (lower_unit c) = lower_unit c.
Proof.
  unfold lower_unit.
  destruct ((65 <=? c) && (c <=? 90))%N eqn:E1.
  - apply andb_true_iff in E1 as [H1 H2]. apply N.leb_le in H1, H2.
    replace (c + 32 <=? 90)%N with false by (symmetry; apply N.leb_gt; lia).
    replace (192 <=? c + 32)%N with false by (symmetry; apply N.leb_gt; lia).
    now rewrite andb_false_r.
  - destruct ((192 <=? c) && (c <=? 222) && negb (c =? 215))%N eqn:E2.
    + apply andb_true_iff in E2 as [E2 _].
      apply andb_true_iff in E2 as [H1 H2]. apply N.leb_le in H1, H2.
      replace (c + 32 <=? 90)%N with false by (symmetry; apply N.leb_gt; lia).
      replace (c + 32 <=? 222)%N with false by (symmetry; apply N.leb_gt; lia).
      now rewrite !andb_false_r.
    + now rewrite E1, E2.
Qed.

Lemma toLowerCase_idem s : toLowerCase (toLowerCase s) = toLowerCase s.
Proof.
  unfold toLowerCase. rewrite <- list_fmap_compose.
  apply list_fmap_ext. intros _ c _. apply lower_unit_idem.
Qed.

Lemma split_nonempty sep s : split sep s <> [].
Proof.
  destruct s as [|c s]; simpl; [done|].
  destruct (c =? sep)%N; [done|]. now destruct (split sep s).
Qed.

Lemma split_without_separator sep s : sep ∉ s -> split sep s = [s].
Proof.
  induction s as [|c s IH]; intros Hs; simpl; [done|].
  apply not_elem_of_cons in Hs as [Hc Hs].
  destruct (N.eqb_spec c sep); [congruence|]. now rewrite IH.
Qed.

Lemma split_fmap (f : N -> N) sep (s : jsstring) :
  (forall c, f c = sep <-> c = sep) ->
  split sep (f <$> s) = (fmap (M := list) f) <$> split sep s.
Proof.
  intros Hf. induction s as [|c s IH]; [done|].
  rewrite fmap_cons. cbn [split]. rewrite IH.
  destruct (N.eqb_spec (f c) sep) as [E|E], (N.eqb_spec c sep) as [E'|E'];
    try (apply (proj1 (Hf c)) in E; congruence);
    try (apply (proj2 (Hf c)) in E'; congruence);
    try done.
  now destruct (split sep s).
Qed.

Lemma pop_fmap (f : N -> N) (segs : list jsstring) :
  pop (fmap (M := list) f <$> segs) = f <$> pop segs.
Proof. unfold pop. rewrite fmap_last. now destruct (last segs). Qed.

Lemma extension_without_dot nm : dot ∉ nm -> extension nm = toLowerCase nm.
Proof. intros H. unfold extension. now rewrite split_without_separator. Qed.

Lemma extension_toLowerCase nm : extension (toLowerCase nm) = extension nm.
Proof.
  unfold extension, toLowerCase at 2.
  rewrite (split_fmap lower_unit dot nm lower_unit_dot), pop_fmap.
  apply toLowerCase_idem.
Qed.

Lemma extension_case_insensitive nm1 nm2 :
  toLowerCase nm1 = toLowerCase nm2 -> extension nm1 = extension nm2.
Proof.
  intros H. now rewrite <- (extension_toLowerCase nm1), H, extension_toLowerCase.
Qed.

Lemma toLowerCase_keeps_dot nm : dot ∈ nm -> dot ∈ toLowerCase nm.
Proof.
  intros H. unfold toLowerCase. apply list_elem_of_fmap.
  exists dot. split; [|done]. symmetry. now apply lower_unit_dot.
Qed.

Lemma validateFile_by_extension nm1 nm2 sz :
  extension nm1 = extension nm2 ->
  validateFile (Some (mkFile nm1 sz)) = validateFile (Some (mkFile nm2 sz)).
Proof. intros H. unfold validateFile. simpl. now rewrite H. Qed.

Lemma validateFile_accepted file :
  accepted_extension (extension (name file)) = true ->
  validateFile (Some file) =
    if (maxMb * 1024 * 1024 <? size file)%N then Some msg_too_large else None.
Proof.
  unfold accepted_extension, validateFile. intros H.
  apply orb_true_iff in H as [H|H]; apply bool_decide_eq_true in H; rewrite H; done.
Qed.

Lemma validateFile_not_accepted file :
  accepted_extension (extension (name file)) = false ->
  validateFile (Some file) = Some msg_unsupported.
Proof.
  unfold accepted_extension, validateFile. intros H.
  apply orb_false_iff in H as [H1 H2].
  apply bool_decide_eq_false in H1, H2.
  now rewrite !bool_decide_eq_true_2.
Qed.

Lemma split_app_separator sep (a b : jsstring) :
  split sep (a ++ sep :: b) = split sep a ++ split sep b.
Proof.
  induction a as [|c a IH]; cbn [app split].
  - now rewrite N.eqb_refl.
  - rewrite IH. destruct (c =? sep)%N; [reflexivity|].
    pose proof (split_nonempty sep a) as Hne.
    now destruct (split sep a).
Qed.

Lemma pop_split_after_separator sep (a b : jsstring) :
  sep ∉ b -> pop (split sep (a ++ sep :: b)) = b.
Proof.
  intros Hb. rewrite split_app_separator, (split_without_separator sep b Hb).
  unfold pop. now rewrite last_snoc.
Qed.

Lemma extension_after_last_dot (a b : jsstring) :
  dot ∉ b -> extension (a ++ dot :: b) = toLowerCase b.
Proof. intros Hb. unfold extension. now rewrite pop_split_after_separator. Qed.

Lemma validateFile_unsupported_iff (nm : jsstring) (sz : N) :
  validateFile (Some (mkFile nm sz)) = Some msg_unsupported <->
  extension nm <> lit "pdf" /\ extension nm <> lit "epub".
Proof.
  destruct (accepted_extension (extension nm)) eqn:A.
  - rewrite (validateFile_accepted (mkFile nm sz)) by exact A.
    unfold accepted_extension in A.
    apply orb_true_iff in A. rewrite !bool_decide_eq_true in A.
    split; [|tauto].
    destruct (maxMb * 1024 * 1024 <? size (mkFile nm sz))%N; [|discriminate].
    intros H. exfalso. revert H. vm_compute. discriminate.
  - rewrite (validateFile_not_accepted (mkFile nm sz)) by exact A.
    unfold accepted_extension in A.
    apply orb_false_iff in A as [A1 A2]. apply bool_decide_eq_false in A1, A2.
    tauto.
Qed.

(** C9.  The extension test reads the last dot-separated segment of the
    name, lower-cased: the part after the last dot, and the whole name
    when it has no dot.  A file is refused as unsupported exactly when
    that segment, lower-cased, is neither pdf nor epub.  So a file called
    "pdf" or "epub" in any letter case passes the type test and any other
    dot-free name fails it; names that differ only in letter case get the
    same verdict, and "Book.PDF" is accepted. *)
Theorem extension_check_reads_lowercased_last_segment :
  (forall nm, dot ∉ nm -> extension nm = toLowerCase nm) /\
  (forall a b, dot ∉ b -> extension (a ++ dot :: b) = toLowerCase b) /\
  (forall nm sz,
     validateFile (Some (mkFile nm sz)) = Some msg_unsupported <->
     extension nm <> lit "pdf" /\ extension nm <> lit "epub") /\
  (forall nm sz, dot ∉ nm ->
     (validateFile (Some (mkFile nm sz)) = Some msg_unsupported <->
      toLowerCase nm <> lit "pdf" /\ toLowerCase nm <> lit "epub")) /\
  (forall a b sz, dot ∉ b ->
     (validateFile (Some (mkFile (a ++ dot :: b) sz)) = Some msg_unsupported <->
      toLowerCase b <> lit "pdf" /\ toLowerCase b <> lit "epub")) /\
  (forall nm sz, toLowerCase nm = lit "pdf" \/ toLowerCase nm = lit "epub" ->
     validateFile (Some (mkFile nm sz)) =
       if (maxMb * 1024 * 1024 <? sz)%N then Some msg_too_large else None) /\
  (forall nm1 nm2 sz, toLowerCase nm1 = toLowerCase nm2 ->
     validateFile (Some (mkFile nm1 sz)) = validateFile (Some (mkFile nm2 sz))) /\
  (forall sz, validateFile (Some (mkFile (lit "Book.PDF") sz)) =
     validateFile (Some (mkFile (lit "book.pdf") sz))) /\
  validateFile (Some (mkFile (lit "Book.PDF") 1024)) = None.
Proof.
  split; [exact extension_without_dot|].
  split; [exact extension_after_last_dot|].
  split; [exact validateFile_unsupported_iff|].
  split.
  { intros nm sz Hdot. rewrite validateFile_unsupported_iff.
    now rewrite (extension_without_dot nm Hdot). }
  split.
  { intros a b sz Hdot. rewrite validateFile_unsupported_iff.
    now rewrite (extension_after_last_dot a b Hdot). }
  split.
  { intros nm sz H.
    assert (Hdot : dot ∉ nm).
    { intros Hin. apply toLowerCase_keeps_dot in Hin.
      destruct H as [H|H]; rewrite H in Hin; vm_compute in Hin;
        repeat (apply elem_of_cons in Hin as [Hin|Hin]; [discriminate|]);
        now apply elem_of_nil in Hin. }
    rewrite (validateFile_accepted (mkFile nm sz)); [done|].
    simpl. rewrite (extension_without_dot _ Hdot).
    unfold accepted_extension. destruct H as [-> | ->]; done. }
  split.
  { intros nm1 nm2 sz H. apply validateFile_by_extension.
    now apply extension_case_insensitive. }
  split; [|done].
  intros sz. apply validateFile_by_extension. done.
Qed.

Lemma extension_check_reads_lowercased_last_segment_witness :
  extension (lit "EPUB") = lit "epub" /\
  validateFile (Some (mkFile (lit "Pdf") 2048)) = None /\
  validateFile (Some (mkFile (lit "a.EpUb") 7)) = validateFile (Some (mkFile (lit "A.epub") 7)) /\
  validateFile (Some (mkFile (lit "notes") 7)) = Some msg_unsupported /\
  validateFile (Some (mkFile (lit "book.pdf.exe") 7)) = Some msg_unsupported.
Proof.
  destruct extension_check_reads_lowercased_last_segment
    as (H1 & _ & _ & Hname & Hlast & H2 & H3 & _).
  assert (Hdot : forall s, bool_decide (dot ∉ lit s) = true -> dot ∉ lit s)
    by (intros s; apply bool_decide_eq_true).
  split; [|split; [|split; [|split]]].
  - rewrite (H1 (lit "EPUB")); [reflexivity|].
    apply Hdot. vm_compute. reflexivity.
  - rewrite (H2 (lit "Pdf") 2048%N); [reflexivity|]. left. reflexivity.
  - apply (H3 (lit "a.EpUb") (lit "A.epub") 7%N). reflexivity.
  - apply (Hname (lit "notes") 7%N); [apply Hdot; vm_compute; reflexivity|].
    split; vm_compute; discriminate.
  - change (lit "book.pdf.exe") with (lit "book.pdf" ++ dot :: lit "exe").
    apply (Hlast (lit "book.pdf") (lit "exe") 7%N);
      [apply Hdot; vm_compute; reflexivity|].
    split; vm_compute; discriminate.
Defined.

(** ** Upload validation: size *)

Lemma size_threshold : (maxMb * 1024 * 1024 = 52428800)%N.
Proof. reflexivity. Qed.

Lemma msg_too_large_text : msg_too_large = lit "File is too large (max 50 MB).".
Proof. reflexivity. Qed.

(** C6, as the code has it.  A file above 50 MB is always refused; the
    verdict is TooLarge when its extension is accepted, and
    UnsupportedType otherwise, because the extension is tested first. *)
Theorem oversized_file_verdict (file : File) :
  (maxMb * 1024 * 1024 < size file)%N ->
  (accepted_extension (extension (name file)) = true ->
     validateFile (Some file) = Some msg_too_large) /\
  (accepted_extension (extension (name file)) = false ->
     validateFile (Some file) = Some msg_unsupported) /\
  validateFile (Some file) <> None.
Proof.
  intros Hsize. apply N.ltb_lt in Hsize.
  split; [|split].
  - intros H. now rewrite validateFile_accepted, Hsize.
  - apply validateFile_not_accepted.
  - destruct (accepted_extension (extension (name file))) eqn:E.
    + now rewrite validateFile_accepted, Hsize.
    + now rewrite validateFile_not_accepted.
Qed.

Lemma oversized_file_verdict_witness :
  validateFile (Some (mkFile (lit "War and Peace.epub") 52428801)) = Some msg_too_large.
Proof.
  apply (oversized_file_verdict (mkFile (lit "War and Peace.epub") 52428801)).
  - reflexivity.
  - reflexivity.
Defined.

(** C6 as stated fails: a 60 MB text file exceeds the threshold and is
    refused for its type, not for its size. *)
Lemma oversized_text_file_is_unsupported :
  let file := mkFile (lit "notes.txt") 60000000 in
  (maxMb * 1024 * 1024 < size file)%N /\
  validateFile (Some file) = Some msg_unsupported /\
  validateFile (Some file) <> Some msg_too_large.
Proof. split; [reflexivity|]. split; [reflexivity|]. discriminate. Qed.

(** ** History *)

Lemma history_after_add_length filename today now l :
  length (history_after_add filename today now l) = Nat.min HISTORY_CAP (S (length l)).
Proof.
  unfold history_after_add.
  destruct (Nat.ltb_spec HISTORY_CAP (length (new_entry filename today now :: l))) as [H|H].
  - rewrite length_take. reflexivity.
  - unfold HISTORY_CAP in *. cbn [length] in *. lia.
Qed.

Lemma history_after_add_full filename today now l :
  length l = HISTORY_CAP ->
  history_after_add filename today now l = new_entry filename today now :: removelast l.
Proof.
  intros H. unfold history_after_add. simpl length. rewrite H.
  change (HISTORY_CAP <? S HISTORY_CAP)%nat with true. cbn iota.
  change HISTORY_CAP with (S (pred HISTORY_CAP)) at 1. rewrite firstn_cons.
  now rewrite removelast_firstn_len, H.
Qed.

Lemma getHistory_addToHistory filename today st :
  getHistory (addToHistory filename today st) =
    if storage_writable (browser st)
    then history_after_add filename today (clock (browser st)) (getHistory st)
    else getHistory st.
Proof. unfold addToHistory, saveHistory. now destruct (storage_writable (browser st)). Qed.

Lemma getHistory_legacy_addToHistory filename today st :
  getHistory (Legacy.addToHistory filename today st) =
  getHistory (addToHistory filename today st).
Proof.
  unfold Legacy.addToHistory, addToHistory, saveHistory.
  now destruct (storage_writable (browser st)).
Qed.

(** C8.  Adding to a history of 50 entries leaves 50: the new entry comes
    first and the last (oldest) one is dropped; whatever was stored, the
    list handed to storage has at most 50 entries, so the stored list
    stays within 50 (a write that localStorage refuses leaves the stored
    list as it was). *)
Theorem history_is_capped_at_50 (st : State) (filename today : jsstring) :
  let old := getHistory st in
  let st' := addToHistory filename today st in
  (length old = 50 -> length (getHistory st') = 50) /\
  (length old = 50 -> storage_writable (browser st) = true ->
     getHistory st' = new_entry filename today (clock (browser st)) :: removelast old) /\
  length (history_after_add filename today (clock (browser st)) old) <= 50 /\
  (storage_writable (browser st) = true -> length (getHistory st') <= 50) /\
  (length old <= 50 -> length (getHistory st') <= 50).
Proof.
  intros old st'. subst old st'. rewrite getHistory_addToHistory.
  pose proof (history_after_add_length filename today (clock (browser st))
                (getHistory st)) as Hlen.
  unfold HISTORY_CAP in Hlen.
  destruct (storage_writable (browser st)); repeat split; intros; try lia; try done.
  now apply history_after_add_full.
Qed.

Lemma history_is_capped_at_50_witness :
  let st' := addToHistory (lit "new.epub") (lit "Nov 2, 2026") with_full_history in
  length (getHistory st') = 50 /\
  getHistory st' =
    new_entry (lit "new.epub") (lit "Nov 2, 2026") 0 :: removelast full_history.
Proof.
  destruct (history_is_capped_at_50 with_full_history (lit "new.epub")
              (lit "Nov 2, 2026")) as (H1 & H2 & _).
  split; [apply H1; reflexivity | apply H2; reflexivity].
Defined.

(** ** Frames of the primitives *)

Lemma clearTimeouts_foldl (l : list nat) (st : State) :
  foldl (fun s h => clearTimeout h s) st l =
  upd_browser (fun b => set_timers (foldl (fun m h => delete h m) (timers b) l)
                                   (nextTimer b) b) st.
Proof.
  revert st. induction l as [|h l IH]; intros st; [reflexivity|].
  simpl. rewrite IH. reflexivity.
Qed.

Lemma clear_progressTimeouts_eq (st : State) :
  clear_progressTimeouts st =
  {| vars := set_progressTimeouts [] (vars st);
     page := page st;
     browser := set_timers (foldl (fun m h => delete h m) (timers (browser st))
                                  (progressTimeouts (vars st)))
                           (nextTimer (browser st)) (browser st) |}.
Proof. unfold clear_progressTimeouts. rewrite clearTimeouts_foldl. reflexivity. Qed.

Lemma schedule_rows_page lines i st : page (schedule_rows lines i st) = page st.
Proof.
  revert i st. induction lines as [|line rest IH]; intros i st; [reflexivity|].
  simpl. now rewrite IH.
Qed.

Lemma schedule_rows_vars lines i st :
  vars (schedule_rows lines i st) =
  set_progressTimeouts (progressTimeouts (vars (schedule_rows lines i st))) (vars st).
Proof.
  revert i st. induction lines as [|line rest IH]; intros i st; [reflexivity|].
  simpl. now rewrite IH.
Qed.

(** Reduction of the state plumbing only: projections, field updates and
    the DOM and audio primitives, leaving strings and numbers alone. *)
Ltac plumbing :=
  cbv beta iota zeta delta
      [vars page browser
       currentUploadId currentEpisodes selectedEpisodeId selectedEpisodeTitle
       currentEpisodeScript currentMainAudioUrl savedResumeTime
       isPlayingInterruptReply progressTimeouts
       elems audioPlayer scriptContent episodeList historyList files0
       timers nextTimer clock stored_history storage_writable requests plays
       src audio_hidden currentTime paused
       play_src play_at play_flag
       upd_vars upd_page upd_browser
       set_session set_selection set_result set_savedResumeTime
       set_isPlayingInterruptReply set_progressTimeouts
       set_elems set_audioPlayer set_scriptContent set_episodeList
       set_historyList set_files0
       set_timers set_clock set_stored_history set_requests set_plays
       on_element hide unhide enable disable write_text write_value
       on_audio audio_set_src audio_remove_src audio_set_hidden audio_set_currentTime
       audio_set_paused audio_pause audio_play
       setTimeout clearTimeout push_timeout fetch
       getElementById read_value visible concealed present error_text session
       fst snd] in *.

(** Lookups through a chain of element writes. *)
Ltac lookups :=
  repeat first [ rewrite lookup_alter_eq
               | rewrite lookup_alter_ne by (first [discriminate | congruence]) ].

(** [progressTimeouts.forEach(clearTimeout)] in closed form. *)
Ltac clear_timeouts := unfold clear_progressTimeouts; rewrite ?clearTimeouts_foldl.

(** Case analysis on the condition of the first conditional in the goal. *)
Ltac case_if :=
  match goal with |- context [if ?c then _ else _] => destruct c eqn:? end.

Lemma present_Some i st :
  present i st = true -> exists e, elems (page st) !! i = Some e.
Proof.
  unfold present, getElementById. intros H.
  apply bool_decide_eq_true in H as [e He]. eauto.
Qed.

Ltac use_present H :=
  let e := fresh "e" in let He := fresh "He" in
  destruct (present_Some _ _ H) as [e He];
  cbv beta delta [page elems] in He; try rewrite He.

(** ** The interrupt controller *)

(** C4.  A question that is blank after trimming is dropped on the spot:
    the state is left exactly as it was, so no request is issued and the
    saved offset, the reply flag, the audio element and the visibility of
    the interrupt trigger and of the ask form are unchanged. *)
Theorem blank_question_changes_nothing (st : State) :
  trim (read_value "interrupt-question" st) = [] ->
  let st' := step AskSubmit st in
  st' = st /\
  requests (browser st') = requests (browser st) /\
  savedResumeTime (vars st') = savedResumeTime (vars st) /\
  isPlayingInterruptReply (vars st') = isPlayingInterruptReply (vars st) /\
  audioPlayer (page st') = audioPlayer (page st) /\
  getElementById "interrupt-btn" st' = getElementById "interrupt-btn" st /\
  getElementById "interrupt-ask-form" st' = getElementById "interrupt-ask-form" st.
Proof.
  intros H.
  assert (E : step AskSubmit st = st).
  { unfold step, on_ask_submit.
    destruct (present "interrupt-ask-submit" st && present "interrupt-question" st);
      [|reflexivity].
    simpl negb. cbv iota. now rewrite H. }
  intros st'. subst st'. rewrite E. repeat split.
Qed.

Lemma blank_question_changes_nothing_witness :
  step AskSubmit (run (listening ++ [InterruptClick; TypeQuestion (lit "   ")]) initial)
  = run (listening ++ [InterruptClick; TypeQuestion (lit "   ")]) initial.
Proof.
  apply (blank_question_changes_nothing
           (run (listening ++ [InterruptClick; TypeQuestion (lit "   ")]) initial)).
  vm_compute. reflexivity.
Defined.

(** C3.  A failed ask request (an answer that is not ok, or a network
    error) brings back the idle controls: the [hidden] attribute is taken
    off the interrupt trigger and put on the ask form, so on a page that
    has them the trigger is shown and the form hidden; the saved resume
    offset is not touched. *)
Theorem failed_ask_restores_idle_ui (st : State) (ev : Event) (msg : jsstring) :
  ask_failure ev = Some msg ->
  let st' := step ev st in
  (hidden <$> getElementById "interrupt-btn" st' =
     (fun _ => false) <$> getElementById "interrupt-btn" st) /\
  (hidden <$> getElementById "interrupt-ask-form" st' =
     (fun _ => true) <$> getElementById "interrupt-ask-form" st) /\
  (present "interrupt-btn" st = true -> visible "interrupt-btn" st' = true) /\
  (present "interrupt-ask-form" st = true ->
     concealed "interrupt-ask-form" st' = true) /\
  savedResumeTime (vars st') = savedResumeTime (vars st).
Proof.
  intros Hev.
  destruct ev; try discriminate Hev;
    try match goal with b : bool |- _ => destruct b; try discriminate Hev end;
    clear Hev;
    unfold step, on_ask_response, on_ask_network_error, showError;
    cbv beta iota zeta delta [negb]; clear_timeouts; plumbing; lookups;
    rewrite <- !option_fmap_compose;
    (split; [now destruct (elems (page st) !! "interrupt-btn")|]);
    (split; [now destruct (elems (page st) !! "interrupt-ask-form")|]);
    (split; [intros Hbtn; use_present Hbtn; reflexivity|]);
    (split; [intros Hform; use_present Hform; reflexivity|]);
    reflexivity.
Qed.

Lemma failed_ask_restores_idle_ui_witness :
  let st := run asking initial in
  let st' := step AskNetworkError st in
  visible "interrupt-btn" st' = true /\
  concealed "interrupt-ask-form" st' = true /\
  savedResumeTime (vars st') = 12.5%Q.
Proof.
  intros st st'.
  destruct (failed_ask_restores_idle_ui st AskNetworkError msg_network eq_refl)
    as (_ & _ & H1 & H2 & H3).
  split; [apply H1; vm_compute; reflexivity|].
  split; [apply H2; vm_compute; reflexivity|].
  unfold st'. rewrite H3. vm_compute. reflexivity.
Defined.

(** ** Failed requests leave the session alone *)

(** C7.  When the parse request fails (an answer that is not ok, or a
    network error) the error is shown: the banner loses its [hidden]
    attribute and carries the message; and the upload id, the episode
    list and the selected episode's id and title are what they were.  The
    submit handler that issued the request does not touch them either. *)
Theorem failed_parse_keeps_session (st : State) (ev : Event) (msg : jsstring) :
  parse_failure ev = Some msg ->
  let st' := step ev st in
  session st' = session st /\
  (hidden <$> getElementById "error-panel" st' =
     (fun _ => false) <$> getElementById "error-panel" st) /\
  (error_text st' = (fun _ => msg) <$> error_text st) /\
  (present "error-panel" st = true -> visible "error-panel" st' = true) /\
  (present "error-message" st = true -> error_text st' = Some msg) /\
  session (step FormSubmit st) = session st /\
  session (step ev (step FormSubmit st)) = session st.
Proof.
  intros Hev.
  assert (Hsubmit : session (step FormSubmit st) = session st).
  { unfold step, on_form_submit, showError.
    destruct (validateFile (files0 (page st))); clear_timeouts; reflexivity. }
  assert (Hfail : forall s, session (step ev s) = session s).
  { intros s.
    destruct ev; try discriminate Hev;
      try match goal with b : bool |- _ => destruct b; try discriminate Hev end;
      unfold step, on_parse_response, on_parse_network_error, showError;
      cbv beta iota zeta delta [negb]; clear_timeouts; reflexivity. }
  intros st'. subst st'. rewrite !Hfail, Hsubmit.
  split; [reflexivity|].
  repeat match goal with |- _ /\ _ => split end; try reflexivity;
    destruct ev; try discriminate Hev;
    try match goal with b : bool |- _ => destruct b; try discriminate Hev end;
    injection Hev as <-; clear Hfail Hsubmit;
    unfold step, on_parse_response, on_parse_network_error, showError;
    cbv beta iota zeta delta [negb]; clear_timeouts; plumbing; lookups;
    rewrite <- ?option_fmap_compose;
    try match goal with
        | |- _ <$> ?o = _ <$> ?o => destruct o; reflexivity
        | |- _ -> _ => let H := fresh in intros H; use_present H; reflexivity
        end.
Qed.

Lemma failed_parse_keeps_session_witness :
  let failure := ParseResponse false
                   {| parse_error := Some (lit "Unreadable file.");
                      parse_upload_id := None; parse_episodes := None |} [] in
  let st := run listening initial in
  let st' := step failure st in
  session st' = session st /\
  visible "error-panel" st' = true /\
  error_text st' = Some (lit "Unreadable file.").
Proof.
  intros failure st st'.
  destruct (failed_parse_keeps_session st failure (lit "Unreadable file.") eq_refl)
    as (H1 & _ & _ & H2 & H3 & _).
  split; [exact H1|].
  split; [apply H2|apply H3]; vm_compute; reflexivity.
Defined.

Lemma foldl_delete_lookup (l : list nat) (m : gmap nat Timer) (h : nat) :
  foldl (fun m h => delete h m) m l !! h =
  if bool_decide (h ∈ l) then None else m !! h.
Proof.
  revert m. induction l as [|x l IH]; intros m; simpl.
  - reflexivity.
  - rewrite IH. destruct (decide (h = x)) as [->|Hne].
    + rewrite lookup_delete_eq.
      rewrite (bool_decide_eq_true_2 (x ∈ x :: l)) by (apply elem_of_cons; auto).
      now destruct (bool_decide (x ∈ l)).
    + rewrite lookup_delete_ne by done.
      assert (bool_decide (h ∈ x :: l) = bool_decide (h ∈ l)) as ->; [|done].
      apply bool_decide_ext. rewrite elem_of_cons.
      split; [intros [?|?]; [congruence|done] | auto].
Qed.






(** ** Resuming the main track *)

Lemma resumeMainAudio_with_main_track (st : State) (u : jsstring) :
  currentMainAudioUrl (vars st) = Some u -> truthy u = true ->
  let st' := resumeMainAudio st in
  src (audioPlayer (page st')) = Some u /\
  currentTime (audioPlayer (page st')) = savedResumeTime (vars st) /\
  paused (audioPlayer (page st')) = false /\
  plays (browser st') =
    {| play_src := Some u; play_at := savedResumeTime (vars st); play_flag := false |}
    :: plays (browser st) /\
  isPlayingInterruptReply (vars st') = false /\
  savedResumeTime (vars st') = savedResumeTime (vars st).
Proof.
  intros Hu Htr. unfold resumeMainAudio. plumbing.
  rewrite Hu. unfold truthy_opt. rewrite Htr. plumbing. repeat split.
Qed.

Lemma resumeMainAudio_without_main_track (st : State) :
  truthy_opt (currentMainAudioUrl (vars st)) = false ->
  let st' := resumeMainAudio st in
  audioPlayer (page st') = audioPlayer (page st) /\
  plays (browser st') = plays (browser st) /\
  isPlayingInterruptReply (vars st') = false.
Proof.
  intros Hu. unfold resumeMainAudio. plumbing. now rewrite Hu.
Qed.

Lemma resumeMainAudio_controls (st : State) :
  let st' := resumeMainAudio st in
  (hidden <$> getElementById "interrupt-btn" st' =
     (fun _ => false) <$> getElementById "interrupt-btn" st) /\
  (hidden <$> getElementById "interrupt-ask-form" st' =
     (fun _ => true) <$> getElementById "interrupt-ask-form" st) /\
  (present "interrupt-btn" st = true -> visible "interrupt-btn" st' = true) /\
  (present "interrupt-ask-form" st = true ->
     concealed "interrupt-ask-form" st' = true).
Proof.
  unfold resumeMainAudio. plumbing.
  case_if; plumbing; lookups; rewrite <- !option_fmap_compose;
    (split; [now destruct (elems (page st) !! "interrupt-btn")|]);
    (split; [now destruct (elems (page st) !! "interrupt-ask-form")|]);
    (split; [intros Hbtn; use_present Hbtn; reflexivity|]);
    intros Hform; use_present Hform; reflexivity.
Qed.




(** ** What the failure branches of an ask request do to the audio *)

(** C2, as the code has it.  The failure branches differ.  When the
    request fails, or the answer carries no audio URL, the handler does
    not touch the audio element and does not call [play()]: the main
    track stays loaded and paused where the interrupt left it.  Only when
    playback of the answer clip is rejected is the main track loaded
    again, set to the saved offset and played. *)
Theorem ask_failure_branches (st : State) :
  (forall ev msg, ask_failure ev = Some msg ->
     audioPlayer (page (step ev st)) = audioPlayer (page st) /\
     plays (browser (step ev st)) = plays (browser st)) /\
  (forall data, truthy_opt (ask_audio_url data) = false ->
     audioPlayer (page (step (AskResponse true data) st)) = audioPlayer (page st) /\
     plays (browser (step (AskResponse true data) st)) = plays (browser st)) /\
  (forall u, currentMainAudioUrl (vars st) = Some u -> truthy u = true ->
     let st' := step AnswerPlayRejected st in
     src (audioPlayer (page st')) = Some u /\
     currentTime (audioPlayer (page st')) = savedResumeTime (vars st) /\
     paused (audioPlayer (page st')) = false /\
     plays (browser st') =
       {| play_src := Some u; play_at := savedResumeTime (vars st); play_flag := false |}
       :: plays (browser st)).
Proof.
  split; [|split].
  - intros ev msg Hev.
    destruct ev; try discriminate Hev;
      try match goal with b : bool |- _ => destruct b; try discriminate Hev end;
      unfold step, on_ask_response, on_ask_network_error, showError;
      cbv beta iota zeta delta [negb]; clear_timeouts; split; reflexivity.
  - intros data Hurl. unfold step, on_ask_response.
    cbv beta iota zeta delta [negb]. plumbing. rewrite Hurl. split; reflexivity.
  - intros u Hu Htr st'. subst st'. unfold step, on_answer_play_rejected.
    destruct (resumeMainAudio_with_main_track
                (upd_vars (set_isPlayingInterruptReply false) st) u Hu Htr)
      as (H1 & H2 & H3 & H4 & _).
    repeat split; assumption.
Qed.

Lemma ask_failure_branches_witness :
  let st := run (asking ++ [AskResponse true {| ask_error := None;
                                                 ask_audio_url := Some answer_url |}])
                initial in
  let st' := step AnswerPlayRejected st in
  src (audioPlayer (page st')) = Some main_url /\
  currentTime (audioPlayer (page st')) = 12.5%Q /\
  audioPlayer (page (step AskNetworkError st)) = audioPlayer (page st).
Proof.
  intros st st'.
  destruct (ask_failure_branches st) as (Hfail & _ & Hrej).
  destruct (Hrej main_url) as (H1 & H2 & _); try (vm_compute; reflexivity).
  destruct (Hfail AskNetworkError msg_network eq_refl) as (H3 & _).
  split; [exact H1|]. split; [|exact H3].
  unfold st'. rewrite H2. vm_compute. reflexivity.
Defined.

(** C2 as stated fails: after a question was sent from 12.5 seconds into
    the episode, a failed request and an answer without audio both leave
    the main track paused, and [play()] has not been called at all. *)
Lemma failed_ask_leaves_main_track_paused :
  let st := run asking initial in
  let failed := step (AskResponse false {| ask_error := Some (lit "Hosts are busy.");
                                           ask_audio_url := None |}) st in
  let silent := step (AskResponse true {| ask_error := None; ask_audio_url := None |}) st in
  let offline := step AskNetworkError st in
  (paused (audioPlayer (page failed)) = true /\ plays (browser failed) = []) /\
  (paused (audioPlayer (page silent)) = true /\ plays (browser silent) = []) /\
  (paused (audioPlayer (page offline)) = true /\ plays (browser offline) = []).
Proof. vm_compute. repeat split. Qed.

(** ** Timers *)

Lemma showError_cancels_tracked (msg : jsstring) (st : State) (h : nat) :
  h ∈ progressTimeouts (vars st) ->
  timers (browser (showError msg st)) !! h = None /\
  progressTimeouts (vars (showError msg st)) = [].
Proof.
  intros Hin. unfold showError. clear_timeouts. plumbing.
  rewrite foldl_delete_lookup, bool_decide_eq_true_2; done.
Qed.

Lemma showResult_cancels_tracked script audioUrl episodeTitle (st : State) (h : nat) :
  h ∈ progressTimeouts (vars st) -> h <> nextTimer (browser st) ->
  timers (browser (showResult script audioUrl episodeTitle st)) !! h = None.
Proof.
  intros Hin Hne. unfold showResult, setProgress. clear_timeouts. plumbing.
  rewrite lookup_insert_ne by done.
  rewrite foldl_delete_lookup, bool_decide_eq_true_2; done.
Qed.

Lemma showResult_transition_timer script audioUrl episodeTitle (st : State) :
  let shown := showResult script audioUrl episodeTitle st in
  timers (browser shown) !! nextTimer (browser st) =
    Some {| due := (clock (browser st) + PROGRESS_TRANSITION_MS)%N;
            action := ResultTransition script audioUrl episodeTitle |} /\
  progressTimeouts (vars shown) = [] /\
  nextTimer (browser shown) = S (nextTimer (browser st)).
Proof.
  unfold showResult, setProgress. clear_timeouts. plumbing.
  rewrite lookup_insert_eq. repeat split.
Qed.

(** C5 fails on the code.  The timer that [showResult] starts for the
    transition to the result is not recorded in [progressTimeouts], so
    neither [showError] nor a later [showResult] cancels it: it is still
    pending afterwards.  In the run below it fires after an error was shown
    and replaces the error banner by the abandoned result. *)
Theorem transition_timer_outlives_error (st : State) (script : list ScriptLine)
    (audioUrl episodeTitle : option jsstring) (msg : jsstring) :
  let h := nextTimer (browser st) in
  let pending := {| due := (clock (browser st) + PROGRESS_TRANSITION_MS)%N;
                    action := ResultTransition script audioUrl episodeTitle |} in
  let shown := showResult script audioUrl episodeTitle st in
  timers (browser shown) !! h = Some pending /\
  (h ∉ progressTimeouts (vars shown)) /\
  timers (browser (showError msg shown)) !! h = Some pending /\
  (forall script2 audioUrl2 episodeTitle2,
     timers (browser (showResult script2 audioUrl2 episodeTitle2 shown)) !! h
     = Some pending) /\
  (let st1 := run error_during_transition initial in
   let st2 := run [Elapse 1500; TimerFired 0] st1 in
   (visible "error-panel" st1 = true /\ visible "result-panel" st1 = false /\
    error_text st1 = Some msg_select_file /\ progressTimeouts (vars st1) = []) /\
   (visible "error-panel" st2 = false /\ visible "result-panel" st2 = true /\
    progressTimeouts (vars st2) = [1; 2])).
Proof.
  intros h pending shown.
  destruct (showResult_transition_timer script audioUrl episodeTitle st)
    as (Hpending & Htracked & Hnext).
  fold shown in Hpending, Htracked, Hnext. fold h in Hpending.
  split; [exact Hpending|].
  split; [rewrite Htracked; apply not_elem_of_nil|].
  split.
  { unfold showError. clear_timeouts. plumbing.
    rewrite foldl_delete_lookup, bool_decide_eq_false_2; [exact Hpending|].
    fold shown. rewrite Htracked. apply not_elem_of_nil. }
  split.
  { intros script2 audioUrl2 episodeTitle2.
    unfold showResult at 1. unfold setProgress. clear_timeouts. plumbing.
    rewrite lookup_insert_ne.
    - rewrite foldl_delete_lookup, bool_decide_eq_false_2; [exact Hpending|].
      fold shown. rewrite Htracked. apply not_elem_of_nil.
    - fold shown. rewrite Hnext. unfold h. lia. }
  vm_compute. repeat split.
Qed.

Lemma legacy_transition_timer_outlives_error (st : State) (script : list ScriptLine)
    (audioUrl : option jsstring) (msg : jsstring) :
  let h := nextTimer (browser st) in
  let pending := {| due := (clock (browser st) + PROGRESS_TRANSITION_MS)%N;
                    action := LegacyTransition script audioUrl |} in
  let shown := Legacy.showResult script audioUrl st in
  timers (browser shown) !! h = Some pending /\
  progressTimeouts (vars shown) = [] /\
  timers (browser (Legacy.showError msg shown)) !! h = Some pending.
Proof.
  intros h pending shown. subst h pending shown.
  unfold Legacy.showError, Legacy.showResult, setProgress. clear_timeouts. plumbing.
  cbn [foldl]. rewrite lookup_insert_eq. repeat split.
Qed.

(** ** The history cap is an invariant of the page *)

Lemma schedule_rows_stored_history lines i st :
  stored_history (browser (schedule_rows lines i st)) = stored_history (browser st).
Proof.
  revert i st. induction lines as [|line rest IH]; intros i st; [reflexivity|].
  simpl. now rewrite IH.
Qed.

Lemma addToHistory_bounded filename today st :
  history_bounded st -> history_bounded (addToHistory filename today st).
Proof.
  unfold history_bounded. intros H. rewrite getHistory_addToHistory.
  destruct (storage_writable (browser st)); [|exact H].
  rewrite history_after_add_length. lia.
Qed.

Lemma removeFromHistory_bounded i st :
  history_bounded st -> history_bounded (removeFromHistory i st).
Proof.
  unfold history_bounded, removeFromHistory, saveHistory, getHistory. intros H.
  destruct (storage_writable (browser st)); [|exact H].
  plumbing. cbn [default].
  etransitivity; [apply length_filter|exact H].
Qed.

Lemma step_keeps_history_bounded (ev : Event) (st : State) :
  history_bounded st -> history_bounded (step ev st).
Proof.
  intros H.
  destruct ev; unfold step;
    try (apply removeFromHistory_bounded; exact H);
    try exact H.
  - unfold on_form_submit. destruct (validateFile _); [|exact H].
    unfold showError. clear_timeouts. exact H.
  - unfold on_episode_activate. case_if; [exact H|].
    destruct (episodeList (page st) !! k); [|exact H].
    unfold onEpisodeSelected. repeat case_if; exact H.
  - unfold on_generate_click. case_if; [exact H|].
    destruct (currentUploadId (vars st)) as [uid|];
      [destruct (selectedEpisodeId (vars st)); [case_if|]|];
      try exact H; unfold showError; clear_timeouts; exact H.
  - unfold on_demo_click. case_if; exact H.
  - unfold on_interrupt_click. repeat case_if; exact H.
  - unfold on_ask_submit. case_if; [exact H|]. case_if; [exact H|].
    destruct (currentEpisodeScript (vars st)) as [[|l ls]|];
      try exact H; unfold showError; clear_timeouts; exact H.
  - unfold on_ended. case_if; [|exact H].
    unfold resumeMainAudio. case_if; exact H.
  - unfold on_answer_play_rejected, resumeMainAudio. case_if; exact H.
  - unfold on_parse_response. destruct ok; cbv beta iota zeta delta [negb].
    + unfold renderEpisodeList. plumbing.
      case_if;
        (match goal with
         | |- history_bounded (match ?f with _ => _ end) => destruct f as [file|]
         end; [|exact H]);
        (case_if; [apply addToHistory_bounded|]; exact H).
    + unfold showError. clear_timeouts. exact H.
  - unfold on_parse_network_error, showError. clear_timeouts. exact H.
  - unfold on_generate_response. destruct ok; cbv beta iota zeta delta [negb];
      unfold showResult, showError; clear_timeouts; exact H.
  - unfold on_generate_network_error, showError. clear_timeouts. exact H.
  - unfold on_demo_response. destruct ok; cbv beta iota zeta delta [negb];
      unfold showResult, showError; clear_timeouts; exact H.
  - unfold on_demo_network_error, showError. clear_timeouts. exact H.
  - unfold on_ask_response. destruct ok; cbv beta iota zeta delta [negb];
      [case_if|]; try exact H; unfold showError; clear_timeouts; exact H.
  - unfold on_ask_network_error, showError. clear_timeouts. exact H.
  - unfold fire. destruct (timers (browser st) !! h) as [t|]; [|exact H].
    case_if; [|exact H].
    destruct (action t); unfold run_timer; try exact H.
    unfold showResult_transition, history_bounded, getHistory.
    rewrite schedule_rows_stored_history.
    match goal with
    | |- context [match ?o with Some _ => _ | None => _ end] =>
        destruct o as [t0|]; [destruct (truthy t0)|]
    end;
      repeat case_if; exact H.
Qed.

(** From a history within the cap, and in particular from an empty one,
    no run of the page stores more than 50 entries. *)
Lemma run_keeps_history_bounded (evs : list Event) (st : State) :
  history_bounded st -> history_bounded (run evs st).
Proof.
  revert st. induction evs as [|ev evs IH]; intros st H; [exact H|].
  apply IH, step_keeps_history_bounded, H.
Qed.

(** ** The transitions of the interrupt controller *)

(** Idle to AwaitingQuestion: with a script and a main track loaded, the
    interrupt pauses the audio, captures its position and swaps the
    trigger for the ask form. *)
Lemma interrupt_click_fires (st : State) (u : jsstring) :
  present "interrupt-btn" st = true ->
  is_Some (currentEpisodeScript (vars st)) ->
  currentMainAudioUrl (vars st) = Some u -> truthy u = true ->
  step InterruptClick st =
    hide "interrupt-btn"
      (unhide "interrupt-ask-form"
         (upd_vars (set_savedResumeTime (currentTime (audioPlayer (page st))))
                   (audio_pause st))).
Proof.
  intros Hbtn Hscript Hu Htr. unfold step, on_interrupt_click.
  rewrite Hbtn, Hu. unfold truthy_opt. rewrite Htr.
  now rewrite bool_decide_eq_true_2.
Qed.

(** Without a script or without a main track the interrupt does nothing. *)
Lemma interrupt_click_ignored (st : State) :
  currentEpisodeScript (vars st) = None \/
  truthy_opt (currentMainAudioUrl (vars st)) = false ->
  step InterruptClick st = st.
Proof.
  intros H. unfold step, on_interrupt_click.
  destruct (present "interrupt-btn" st); [|reflexivity].
  destruct H as [H|H]; rewrite H; [reflexivity|].
  now rewrite orb_true_r.
Qed.

(** AwaitingQuestion to RequestingAnswer. *)
Lemma ask_submit_fires (st : State) (l : ScriptLine) (ls : list ScriptLine) :
  present "interrupt-ask-submit" st = true ->
  present "interrupt-question" st = true ->
  truthy (trim (read_value "interrupt-question" st)) = true ->
  currentEpisodeScript (vars st) = Some (l :: ls) ->
  step AskSubmit st =
    fetch (PostAskHosts (trim (read_value "interrupt-question" st)) (l :: ls))
          (disable "interrupt-ask-submit" st).
Proof.
  intros Hsubmit Hquestion Hq Hscript. unfold step, on_ask_submit.
  now rewrite Hsubmit, Hquestion, Hq, Hscript.
Qed.

(** RequestingAnswer to PlayingAnswer. *)
Lemma ask_response_plays (st : State) (data : AskData) :
  truthy_opt (ask_audio_url data) = true ->
  step (AskResponse true data) st =
    audio_play
      (audio_set_src (ask_audio_url data)
         (upd_vars (set_isPlayingInterruptReply true)
                   (enable "interrupt-ask-submit" st))).
Proof. intros H. unfold step, on_ask_response. cbv beta iota zeta delta [negb]. now rewrite H. Qed.

Lemma read_written_value (i : string) (s : jsstring) (st : State) :
  present i st = true -> read_value i (write_value i s st) = s.
Proof.
  intros H. destruct (present_Some _ _ H) as [e He].
  unfold read_value, write_value, getElementById, on_element. plumbing.
  rewrite lookup_alter_eq. cbv beta delta [page elems] in He. now rewrite He.
Qed.

Lemma present_on_element (i j : string) (f : Element -> Element) (st : State) :
  present j (on_element i f st) = present j st.
Proof.
  unfold present, getElementById, on_element. plumbing.
  apply bool_decide_ext. apply lookup_alter_is_Some.
Qed.

Lemma run_app (evs1 evs2 : list Event) (st : State) :
  run (evs1 ++ evs2) st = run evs2 (run evs1 st).
Proof. unfold run. apply foldl_app. Qed.

(** Playback progress moves the audio element and nothing else. *)
Lemma playing_frame (ts : list Q) :
  forall st : State,
  let st' := run (Playing <$> ts) st in
  vars st' = vars st /\ browser st' = browser st /\
  elems (page st') = elems (page st) /\
  src (audioPlayer (page st')) = src (audioPlayer (page st)).
Proof.
  induction ts as [|t ts IH]; intros st; [repeat split|].
  cbn [fmap list_fmap]. change (run (Playing t :: (Playing <$> ts)) st)
    with (run (Playing <$> ts) (step (Playing t) st)).
  destruct (IH (step (Playing t) st)) as (H1 & H2 & H3 & H4).
  cbv zeta. rewrite H1, H2, H3, H4. repeat split.
Qed.

(** X25.  The whole round trip: interrupt, question, answer clip, end of
    clip.  The answer clip is started from its beginning with the reply
    flag set; however far it has played when it ends, the main track is
    loaded again and started at the position it was interrupted at, with
    the flag cleared, the trigger shown again and the ask form hidden, and
    exactly one question has been sent. *)
Lemma interrupt_round_trip (st : State) (u q a : jsstring)
    (l : ScriptLine) (ls : list ScriptLine) (ts : list Q) :
  present "interrupt-btn" st = true ->
  present "interrupt-ask-form" st = true ->
  present "interrupt-ask-submit" st = true ->
  present "interrupt-question" st = true ->
  currentMainAudioUrl (vars st) = Some u -> truthy u = true ->
  currentEpisodeScript (vars st) = Some (l :: ls) ->
  truthy (trim q) = true -> truthy a = true ->
  let answer := AskResponse true {| ask_error := None; ask_audio_url := Some a |} in
  let st' := run ([InterruptClick; TypeQuestion q; AskSubmit; answer]
                  ++ (Playing <$> ts) ++ [Ended]) st in
  src (audioPlayer (page st')) = Some u /\
  currentTime (audioPlayer (page st')) = currentTime (audioPlayer (page st)) /\
  paused (audioPlayer (page st')) = false /\
  isPlayingInterruptReply (vars st') = false /\
  visible "interrupt-btn" st' = true /\
  concealed "interrupt-ask-form" st' = true /\
  requests (browser st') = PostAskHosts (trim q) (l :: ls) :: requests (browser st) /\
  plays (browser st') =
    {| play_src := Some u; play_at := currentTime (audioPlayer (page st));
       play_flag := false |}
    :: {| play_src := Some a; play_at := 0; play_flag := true |}
    :: plays (browser st).
Proof.
  intros Hbtn Hform Hsubmit Hquestion Hu Htr Hscript Hq Ha answer st'.
  set (s1 := hide "interrupt-btn"
               (unhide "interrupt-ask-form"
                  (upd_vars (set_savedResumeTime (currentTime (audioPlayer (page st))))
                            (audio_pause st)))).
  set (s2 := write_value "interrupt-question" q s1).
  set (s3 := fetch (PostAskHosts (trim q) (l :: ls)) (disable "interrupt-ask-submit" s2)).
  set (s4 := audio_play
               (audio_set_src (Some a)
                  (upd_vars (set_isPlayingInterruptReply true)
                            (enable "interrupt-ask-submit" s3)))).
  set (s5 := run (Playing <$> ts) s4).
  destruct (playing_frame ts s4) as (Hvars & Hbrowser & Helems & _).
  fold s5 in Hvars, Hbrowser, Helems.
  assert (E4 : run [InterruptClick; TypeQuestion q; AskSubmit; answer] st = s4).
  { subst answer. unfold run. cbn [foldl].
    rewrite (interrupt_click_fires st u) by (rewrite ?Hscript; eauto). fold s1.
    change (step (TypeQuestion q) s1) with s2.
    assert (Hq2 : read_value "interrupt-question" s2 = q).
    { apply read_written_value. unfold s1, hide, unhide.
      now rewrite !present_on_element. }
    rewrite (ask_submit_fires s2 l ls); rewrite ?Hq2; try assumption.
    - fold s3. rewrite (ask_response_plays s3) by exact Ha.
      reflexivity.
    - unfold s2, write_value, s1, hide, unhide. now rewrite !present_on_element.
    - unfold s2, write_value, s1, hide, unhide. now rewrite !present_on_element. }
  assert (E : st' = resumeMainAudio s5).
  { subst st'. rewrite !run_app, E4. fold s5.
    change (run [Ended] s5) with (on_ended s5). unfold on_ended.
    now rewrite Hvars. }
  rewrite E. clear E E4 st'.
  assert (Hu5 : currentMainAudioUrl (vars s5) = Some u) by (rewrite Hvars; exact Hu).
  destruct (resumeMainAudio_with_main_track s5 u Hu5 Htr) as (H1 & H2 & H3 & H4 & H5 & _).
  destruct (resumeMainAudio_controls s5) as (_ & _ & H6 & H7).
  cbv zeta in H1, H2, H3, H4, H5, H6, H7.
  rewrite Hvars in H2, H4. rewrite Hbrowser in H4.
  assert (Hpresent : forall i, present i s5 = present i st).
  { intros i. unfold present, getElementById. rewrite Helems.
    change (present i s4 = present i st). unfold s4, s3, s2, s1.
    unfold audio_play, audio_set_src, fetch, enable, disable, write_value, hide, unhide.
    change (present i
              (on_element "interrupt-ask-submit" (set_disabled false)
                 (on_element "interrupt-ask-submit" (set_disabled true)
                    (on_element "interrupt-question" (set_value q)
                       (on_element "interrupt-btn" (set_hidden true)
                          (on_element "interrupt-ask-form" (set_hidden false) st)))))
            = present i st).
    now rewrite !present_on_element. }
  specialize (H6 (eq_trans (Hpresent _) Hbtn)).
  specialize (H7 (eq_trans (Hpresent _) Hform)).
  split; [exact H1|]. split; [exact H2|]. split; [exact H3|].
  split; [exact H5|]. split; [exact H6|]. split; [exact H7|].
  split; [|exact H4].
  transitivity (requests (browser s5)); [|now rewrite Hbrowser].
  clear. unfold resumeMainAudio. plumbing. case_if; reflexivity.
Qed.

(** * Further properties *)

(** ** File names *)

Lemma lastIndexOf_from_range c s i found :
  lastIndexOf_from c s i found = found \/
  (i <= lastIndexOf_from c s i found < i + Z.of_nat (length s))%Z.
Proof.
  revert i found. induction s as [|d s IH]; intros i found; [now left|].
  cbn [lastIndexOf_from length].
  destruct (IH (i + 1)%Z (if (d =? c)%N then i else found)) as [E|E].
  - rewrite E. destruct (d =? c)%N; [right; lia | now left].
  - right. lia.
Qed.

Lemma lastIndexOf_range c s :
  lastIndexOf c s = (-1)%Z \/ (0 <= lastIndexOf c s < Z.of_nat (length s))%Z.
Proof. apply lastIndexOf_from_range. Qed.

Lemma kept_extension_length nm :
  (0 < lastIndexOf dot nm)%Z ->
  length (kept_extension nm) = length nm - Z.to_nat (lastIndexOf dot nm).
Proof.
  intros H. unfold kept_extension, slice_from.
  apply Z.ltb_lt in H. rewrite H. apply length_drop.
Qed.

(** X1.  [formatFileName] returns a name of at most 32 code units as it
    is.  A longer name whose extension (dot included) has at most 29 code
    units comes back with exactly 30: a prefix of the name, the ellipsis,
    and the extension in full. *)
Theorem formatFileName_shortens_to_30 (nm : jsstring) :
  (length nm <= 32 -> formatFileName nm = nm) /\
  (32 < length nm -> length (kept_extension nm) <= 29 ->
     formatFileName nm =
       take (29 - length (kept_extension nm)) nm ++ ellipsis ++ kept_extension nm /\
     length (formatFileName nm) = 30).
Proof.
  split.
  - intros H. unfold formatFileName, MAX_FILENAME_LENGTH.
    destruct (Z.leb_spec (Z.of_nat (length nm)) 32); [|lia].
    now rewrite orb_true_r.
  - intros Hlen Hext.
    assert (E : formatFileName nm =
      take (29 - length (kept_extension nm)) nm ++ ellipsis ++ kept_extension nm).
    { unfold formatFileName, MAX_FILENAME_LENGTH.
      destruct nm as [|c nm']; [simpl in Hlen; lia|]. set (nm := c :: nm') in *.
      cbn [truthy negb orb].
      destruct (Z.leb_spec (Z.of_nat (length nm)) 32); [lia|].
      pose proof (lastIndexOf_range dot nm) as Hi.
      unfold kept_extension in *.
      destruct (Z.ltb_spec 0 (lastIndexOf dot nm)) as [Hpos|Hpos].
      - assert (Hd : length (slice_from (lastIndexOf dot nm) nm)
                     = length nm - Z.to_nat (lastIndexOf dot nm))
          by apply length_drop.
        unfold slice_to. rewrite take_take. f_equal.
        f_equal. lia.
      - unfold slice_to. cbn [length]. f_equal. }
    split; [exact E|].
    rewrite E, !length_app, length_take. unfold ellipsis. cbn [length]. lia.
Qed.

Lemma formatFileName_shortens_to_30_witness :
  formatFileName (lit "a_very_long_file_name_that_goes_on_and_on.epub")
  = lit "a_very_long_file_name_th" ++ ellipsis ++ lit ".epub".
Proof.
  destruct (formatFileName_shortens_to_30
              (lit "a_very_long_file_name_that_goes_on_and_on.epub")) as [_ H].
  destruct H as [H _]; [vm_compute; lia | vm_compute; lia |].
  rewrite H. reflexivity.
Defined.

(** X2.  The extension of a long name is never cut.  When it has more
    than 29 code units the result is the ellipsis followed by the whole
    extension, so it is longer than 30, and longer than the 32 the
    function aims at once the extension has 32. *)
Theorem formatFileName_keeps_long_extension (nm : jsstring) :
  32 < length nm -> 29 < length (kept_extension nm) ->
  formatFileName nm = ellipsis ++ kept_extension nm /\
  length (formatFileName nm) = S (length (kept_extension nm)) /\
  (32 <= length (kept_extension nm) -> 32 < length (formatFileName nm)).
Proof.
  intros Hlen Hext.
  assert (E : formatFileName nm = ellipsis ++ kept_extension nm).
  { unfold formatFileName, MAX_FILENAME_LENGTH.
    destruct nm as [|c nm']; [simpl in Hlen; lia|]. set (nm := c :: nm') in *.
    cbn [truthy negb orb].
    destruct (Z.leb_spec (Z.of_nat (length nm)) 32); [lia|].
    unfold kept_extension in *.
    destruct (Z.ltb_spec 0 (lastIndexOf dot nm)) as [Hpos|Hpos];
      [|cbn [length] in Hext; lia].
    unfold slice_to.
    replace (Z.to_nat _) with 0 by lia. reflexivity. }
  rewrite E. unfold ellipsis. cbn [app length]. repeat split; lia.
Qed.

Lemma formatFileName_keeps_long_extension_witness :
  let nm := lit "x.a_very_long_extension_that_goes_on_and_on" in
  formatFileName nm = ellipsis ++ lit ".a_very_long_extension_that_goes_on_and_on" /\
  length (formatFileName nm) = 43.
Proof.
  intros nm.
  destruct (formatFileName_keeps_long_extension nm) as (H1 & H2 & _);
    [vm_compute; lia | vm_compute; lia |].
  split; [rewrite H1; reflexivity | rewrite H2; reflexivity].
Defined.

(** X3.  The extension [validateFile] tests is what follows the last dot
    of the name, lower-cased.  So a name is accepted exactly when that
    part reads pdf or epub in some letter case and the size is at most
    50 MB: ".pdf" passes, "book.pdf." (empty last segment) and
    "book.pdf.exe" do not. *)
Theorem validateFile_reads_after_last_dot (a b : jsstring) (sz : N) :
  dot ∉ b ->
  extension (a ++ dot :: b) = toLowerCase b /\
  (validateFile (Some (mkFile (a ++ dot :: b) sz)) = None <->
   (toLowerCase b = lit "pdf" \/ toLowerCase b = lit "epub") /\ (sz <= 52428800)%N).
Proof.
  intros Hb.
  assert (E : extension (a ++ dot :: b) = toLowerCase b).
  { unfold extension. now rewrite pop_split_after_separator. }
  split; [exact E|].
  assert (Hacc : accepted_extension (toLowerCase b) = true <->
                 toLowerCase b = lit "pdf" \/ toLowerCase b = lit "epub").
  { unfold accepted_extension. rewrite orb_true_iff, !bool_decide_eq_true. tauto. }
  destruct (accepted_extension (toLowerCase b)) eqn:A.
  - rewrite validateFile_accepted by (cbn [name]; now rewrite E).
    cbn [size]. change (maxMb * 1024 * 1024)%N with 52428800%N.
    destruct (N.ltb_spec 52428800 sz).
    + split; [discriminate|]. intros [_ ?]. lia.
    + split; [|reflexivity]. intros _. split; [now apply Hacc | assumption].
  - rewrite validateFile_not_accepted by (cbn [name]; now rewrite E).
    split; [discriminate|]. intros [H _]. apply Hacc in H. discriminate H.
Qed.

Lemma validateFile_reads_after_last_dot_witness :
  extension (lit ".PDF") = lit "pdf" /\
  validateFile (Some (mkFile (lit ".PDF") 4096)) = None /\
  validateFile (Some (mkFile (lit "book.pdf.") 4096)) <> None /\
  validateFile (Some (mkFile (lit "book.pdf.exe") 4096)) <> None.
Proof.
  assert (H0 : forall s, dot ∉ lit s <-> bool_decide (dot ∉ lit s) = true)
    by (intros s; now rewrite bool_decide_eq_true).
  destruct (validateFile_reads_after_last_dot [] (lit "PDF") 4096) as [H1 H2];
    [apply H0; vm_compute; reflexivity|].
  destruct (validateFile_reads_after_last_dot (lit "book.pdf") [] 4096) as [_ H3];
    [apply not_elem_of_nil|].
  destruct (validateFile_reads_after_last_dot (lit "book.pdf") (lit "exe") 4096)
    as [_ H4]; [apply H0; vm_compute; reflexivity|].
  split; [exact H1|]. split; [apply H2; split; [now left | vm_compute; discriminate]|].
  split.
  - intros H. apply H3 in H as [[H|H] _]; discriminate H.
  - intros H. apply H4 in H as [[H|H] _]; discriminate H.
Defined.

(** ** Escaping *)

Lemma escape_unit_range (c x : N) :
  x ∈ escape_unit c -> x <> 60%N /\ x <> 62%N /\ x <> 160%N.
Proof.
  unfold escape_unit.
  destruct (N.eqb_spec c 38); [|destruct (N.eqb_spec c 60);
    [|destruct (N.eqb_spec c 62); [|destruct (N.eqb_spec c 160)]]];
    intros H; vm_compute in H;
    repeat (apply elem_of_cons in H as [H|H]; [subst x; repeat split; first [discriminate | congruence]|]);
    now apply elem_of_nil in H.
Qed.

(** X4.  Escaped text holds no markup: whatever the speaker and the text
    of a script line or the name and date of a history entry contain,
    what [escapeHtml] returns has no "<", no ">" and no non-breaking
    space, and a text without "&", "<", ">" and non-breaking space is
    returned as it is. *)
Theorem escapeHtml_leaves_no_markup (s : jsstring) :
  ((60%N ∉ escapeHtml s) /\ (62%N ∉ escapeHtml s) /\ (160%N ∉ escapeHtml s)) /\
  ((forall c, c ∈ s -> c <> 38%N /\ c <> 60%N /\ c <> 62%N /\ c <> 160%N) ->
   escapeHtml s = s).
Proof.
  split.
  - repeat split; intros H; unfold escapeHtml in H;
      apply list_elem_of_bind in H as (c & Hx & _);
      apply escape_unit_range in Hx; tauto.
  - induction s as [|c s IH]; intros H; [reflexivity|].
    unfold escapeHtml in *. rewrite bind_cons.
    rewrite IH by (intros d Hd; apply H; apply elem_of_cons; now right).
    destruct (H c) as (H1 & H2 & H3 & H4); [apply elem_of_cons; now left|].
    unfold escape_unit.
    destruct (N.eqb_spec c 38); [contradiction|].
    destruct (N.eqb_spec c 60); [contradiction|].
    destruct (N.eqb_spec c 62); [contradiction|].
    destruct (N.eqb_spec c 160); [contradiction|]. reflexivity.
Qed.

Lemma escapeHtml_leaves_no_markup_witness :
  escapeHtml (lit "Host A") = lit "Host A".
Proof.
  apply (escapeHtml_leaves_no_markup (lit "Host A")).
  intros c H. vm_compute in H.
  repeat (apply elem_of_cons in H as [H|H]; [subst c; repeat split; discriminate|]).
  now apply elem_of_nil in H.
Defined.

(** ** The label of the chosen file *)

Lemma hundredths_at_limit (sz : N) :
  (52423558 <= sz <= 52434042)%N -> hundredths sz = 5000%N.
Proof.
  intros H. unfold hundredths. symmetry.
  apply (N.div_unique _ _ _ (200 * sz + 1048576 - 2097152 * 5000)%N); lia.
Qed.

(** X5.  The label and the size test round differently.  A PDF or EPUB of
    more than 52428800 and at most 52434042 bytes is refused as larger
    than 50 MB, while the label the [change] listener shows for it reads
    "50.00 MB". *)
Theorem refused_file_labelled_50_MB (file : File) :
  accepted_extension (extension (name file)) = true ->
  (52428800 < size file <= 52434042)%N ->
  validateFile (Some file) = Some msg_too_large /\
  selectedFilename (on_file_change (Some file)) =
    formatFileName (name file) ++ lit " " ++ middle_dot ++ lit " 50.00 MB" /\
  is_visible (on_file_change (Some file)) = true.
Proof.
  intros Hext [Hlo Hhi].
  split.
  - rewrite validateFile_accepted by exact Hext.
    change (maxMb * 1024 * 1024)%N with 52428800%N.
    now rewrite (proj2 (N.ltb_lt _ _) Hlo).
  - unfold on_file_change. cbn [selectedFilename is_visible]. split; [|reflexivity].
    unfold sizeMb. rewrite hundredths_at_limit by lia. reflexivity.
Qed.

Lemma refused_file_labelled_50_MB_witness :
  validateFile (Some (mkFile (lit "Atlas.pdf") 52428801)) = Some msg_too_large /\
  selectedFilename (on_file_change (Some (mkFile (lit "Atlas.pdf") 52428801))) =
    lit "Atlas.pdf " ++ middle_dot ++ lit " 50.00 MB".
Proof.
  destruct (refused_file_labelled_50_MB (mkFile (lit "Atlas.pdf") 52428801))
    as (H1 & H2 & _); [reflexivity | cbn [size]; lia |].
  split; [exact H1 | rewrite H2; reflexivity].
Defined.

(** ** The theme *)

(** X6.  Every click on the theme toggle flips between light and not
    light.  When localStorage accepts the write and the markup itself does
    not ask for the light theme, the choice survives a reload; when the
    write is refused, the reload shows what was stored before. *)
Theorem theme_toggle_persists (t : Theme.ThemeState) (markup : option jsstring) :
  markup <> Some (lit "light") ->
  Theme.is_light (Theme.on_toggle t) = negb (Theme.is_light t) /\
  (Theme.theme_writable t = true ->
     Theme.is_light (Theme.reload markup (Theme.on_toggle t))
     = Theme.is_light (Theme.on_toggle t)) /\
  (Theme.theme_writable t = false ->
     Theme.is_light (Theme.reload markup (Theme.on_toggle t))
     = bool_decide (Theme.stored_theme t = Some (lit "light"))).
Proof.
  intros Hmarkup.
  unfold Theme.is_light, Theme.reload, Theme.on_load, Theme.on_toggle, Theme.setTheme.
  cbn [Theme.data_theme Theme.stored_theme Theme.theme_writable].
  destruct (decide (Theme.data_theme t = Some (lit "light"))) as [E|E].
  - rewrite (bool_decide_eq_true_2 _ E). cbn [negb].
    split; [reflexivity|]. split; intros ->.
    + cbn. now rewrite bool_decide_eq_false_2.
    + destruct (decide (Theme.stored_theme t = Some (lit "light"))) as [S|S].
      * rewrite !(bool_decide_eq_true_2 _ S). cbn. reflexivity.
      * rewrite !(bool_decide_eq_false_2 _ S). cbn.
        now rewrite bool_decide_eq_false_2.
  - rewrite (bool_decide_eq_false_2 _ E). cbn [negb].
    split; [reflexivity|]. split; intros ->.
    + cbn. reflexivity.
    + destruct (decide (Theme.stored_theme t = Some (lit "light"))) as [S|S].
      * rewrite !(bool_decide_eq_true_2 _ S). cbn. reflexivity.
      * rewrite !(bool_decide_eq_false_2 _ S). cbn.
        now rewrite bool_decide_eq_false_2.
Qed.

Lemma theme_toggle_persists_witness :
  let t := Theme.mkTheme None None true in
  Theme.is_light (Theme.on_toggle t) = true /\
  Theme.is_light (Theme.reload None (Theme.on_toggle t)) = true /\
  Theme.is_light (Theme.reload None (Theme.on_toggle (Theme.on_toggle t))) = false.
Proof.
  intros t.
  destruct (theme_toggle_persists t None) as (H1 & H2 & _); [discriminate|].
  destruct (theme_toggle_persists (Theme.on_toggle t) None) as (H3 & H4 & _);
    [discriminate|].
  split; [rewrite H1; reflexivity|].
  split; [rewrite H2; reflexivity|].
  rewrite H4 by reflexivity. rewrite H3, H1. reflexivity.
Defined.

(** ** The first script *)

Lemma indexOf_from_lower x arr i :
  Phase1.indexOf_from x arr i = (-1)%Z \/ (i <= Phase1.indexOf_from x arr i)%Z.
Proof.
  revert i. induction arr as [|y arr IH]; intros i; [now left|].
  cbn [Phase1.indexOf_from]. destruct (bool_decide (y = x)); [right; lia|].
  destruct (IH (i + 1)%Z); [now left | right; lia].
Qed.

Lemma mark_spec (state : jsstring) (el : Phase1.StepEl) :
  Phase1.data_step (Phase1.mark state el) = Phase1.data_step el /\
  Phase1.is_done (Phase1.mark state el) =
    (Phase1.indexOf (Phase1.data_step el) Phase1.STATES
       <? Phase1.indexOf state Phase1.STATES)%Z /\
  Phase1.is_active (Phase1.mark state el) = bool_decide (Phase1.data_step el = state).
Proof.
  unfold Phase1.mark.
  destruct (Z.ltb_spec (Phase1.indexOf (Phase1.data_step el) Phase1.STATES)
                       (Phase1.indexOf state Phase1.STATES)) as [Hlt|Hge].
  - cbn. repeat split. symmetry. apply bool_decide_eq_false_2.
    intros E. rewrite E in Hlt. lia.
  - destruct (bool_decide (Phase1.data_step el = state)); cbn; repeat split.
Qed.

(** X7.  On a strip that has one step per state of [STATES], in order,
    [setState] with the [k]-th state marks the steps before it as done
    and that step as active, and leaves the later ones unmarked; no step
    is both.  With a state that is not in [STATES], such as the "error"
    of [showError], the strip is shown with no step done. *)
Theorem setState_marks_progress (state msg : jsstring) (p : Phase1.PageState) :
  Phase1.data_step <$> Phase1.steps p = Phase1.STATES ->
  (forall k, Phase1.STATES !! k = Some state ->
     forall j el, Phase1.steps (Phase1.setState state msg p) !! j = Some el ->
       Phase1.is_done el = bool_decide (j < k) /\
       Phase1.is_active el = bool_decide (j = k)) /\
  (state ∉ Phase1.STATES ->
     Phase1.strip_hidden (Phase1.setState state msg p) = false /\
     forall el, el ∈ Phase1.steps (Phase1.setState state msg p) ->
       Phase1.is_done el = false /\ Phase1.is_active el = false).
Proof.
  intros Hsteps.
  destruct (Phase1.steps p) as [|e0 [|e1 [|e2 [|e3 [|e4 [|e5 rest]]]]]] eqn:Ep;
    try discriminate Hsteps.
  injection Hsteps as H0 H1 H2 H3 H4.
  destruct e0 as [d0 a0 n0], e1 as [d1 a1 n1], e2 as [d2 a2 n2],
           e3 as [d3 a3 n3], e4 as [d4 a4 n4].
  cbn [Phase1.data_step] in H0, H1, H2, H3, H4. subst d0 d1 d2 d3 d4.
  split.
  - intros k Hk j el Hel.
    unfold Phase1.setState in Hel. cbn [Phase1.steps] in Hel. rewrite Ep in Hel.
    destruct k as [|[|[|[|[|k]]]]]; try discriminate Hk;
      injection Hk as <-;
      (destruct j as [|[|[|[|[|j]]]]]; try discriminate Hel;
       injection Hel as <-; vm_compute; split; reflexivity).
  - intros Hnot. split; [reflexivity|].
    intros el Hel. unfold Phase1.setState in Hel. cbn [Phase1.steps] in Hel.
    rewrite Ep in Hel.
    assert (Hidx : Phase1.indexOf state Phase1.STATES = (-1)%Z).
    { unfold Phase1.indexOf, Phase1.STATES in *.
      repeat (apply not_elem_of_cons in Hnot as [? Hnot]).
      cbn [Phase1.indexOf_from].
      rewrite !bool_decide_eq_false_2 by congruence. reflexivity. }
    assert (Hne : forall e, Phase1.data_step e ∈ Phase1.STATES ->
              Phase1.is_done (Phase1.mark state e) = false /\
              Phase1.is_active (Phase1.mark state e) = false).
    { intros e He. destruct (mark_spec state e) as (_ & -> & ->). rewrite Hidx.
      split.
      - apply Z.ltb_ge.
        destruct (indexOf_from_lower (Phase1.data_step e) Phase1.STATES 0) as [E|E];
          unfold Phase1.indexOf; lia.
      - apply bool_decide_eq_false_2. intros E. rewrite E in He. contradiction. }
    cbn [fmap list_fmap] in Hel.
    repeat (apply elem_of_cons in Hel as [->|Hel];
            [apply Hne; cbn [Phase1.data_step]; apply list_elem_of_In;
             cbn; tauto|]).
    now apply elem_of_nil in Hel.
Qed.

Lemma setState_marks_progress_witness :
  let p := Phase1.mkPageState true [] [] Phase1.fresh_steps true [] true false
                              None true [] None [] in
  let parsing := Phase1.mark (lit "generating_script")
                   (Phase1.mkStep (lit "parsing") false false) in
  let current := Phase1.mark (lit "generating_script")
                   (Phase1.mkStep (lit "generating_script") false false) in
  (Phase1.is_done parsing = true /\ Phase1.is_active parsing = false) /\
  (Phase1.is_done current = false /\ Phase1.is_active current = true).
Proof.
  intros p parsing current.
  destruct (setState_marks_progress (lit "generating_script") [] p eq_refl) as [H _].
  specialize (H 2 eq_refl).
  split; [exact (H 1 parsing eq_refl) | exact (H 2 current eq_refl)].
Defined.

(** X8.  The submit button of the first script never stays disabled:
    whatever the answer (ok or not, any body) and on a network error it
    is enabled again.  A file that fails validation is not sent and the
    button is not touched; a valid file is sent once with the button
    disabled. *)
Theorem phase1_submit_button (p : Phase1.PageState) :
  (forall ok data, Phase1.submit_disabled (Phase1.on_response ok data p) = false) /\
  Phase1.submit_disabled (Phase1.on_network_error p) = false /\
  (forall err, validateFile (Phase1.chosen p) = Some err ->
     Phase1.sent (Phase1.on_submit p) = Phase1.sent p /\
     Phase1.submit_disabled (Phase1.on_submit p) = Phase1.submit_disabled p /\
     Phase1.error_message (Phase1.on_submit p) = err /\
     Phase1.error_hidden (Phase1.on_submit p) = false) /\
  (validateFile (Phase1.chosen p) = None ->
     Phase1.sent (Phase1.on_submit p) = Phase1.chosen p :: Phase1.sent p /\
     Phase1.submit_disabled (Phase1.on_submit p) = true /\
     Phase1.error_hidden (Phase1.on_submit p) = true).
Proof.
  split; [|split; [reflexivity|split]].
  - intros ok data. unfold Phase1.on_response.
    destruct ok; cbn [negb]; reflexivity.
  - intros err H. unfold Phase1.on_submit. rewrite H. repeat split.
  - intros H. unfold Phase1.on_submit. rewrite H. repeat split.
Qed.

Lemma phase1_submit_button_witness :
  let p := Phase1.mkPageState true [] [] Phase1.fresh_steps true [] true false
                              None true [] (Some (mkFile (lit "notes.txt") 10)) [] in
  Phase1.sent (Phase1.on_submit p) = [] /\
  Phase1.error_message (Phase1.on_submit p) = msg_unsupported.
Proof.
  intros p.
  destruct (phase1_submit_button p) as (_ & _ & H & _).
  destruct (H msg_unsupported eq_refl) as (H1 & _ & H2 & _).
  split; [exact H1 | exact H2].
Defined.

(** X9.  An answer of the first script whose state is not "ready" always
    moves the strip to that state.  Its script is rendered only when the
    body has an [audio_url] key: with the key missing the result panel and
    the lines on display stay as they were; with the key present, even as
    null, the result replaces the strip, every line rendered in order,
    and the player is shown only for a non-empty URL. *)
Theorem phase1_partial_answer (p : Phase1.PageState) (data : Phase1.PodcastData)
    (state : jsstring) (script : list ScriptLine) :
  Phase1.pd_state data = Some state ->
  truthy state = true ->
  state <> lit "ready" ->
  Phase1.pd_script data = Some script ->
  let p' := Phase1.on_response true data p in
  Phase1.strip_state p' = state /\
  (Phase1.pd_audio_url data = Phase1.Undefined ->
     Phase1.strip_hidden p' = false /\
     Phase1.result_hidden p' = Phase1.result_hidden p /\
     Phase1.script_lines p' = Phase1.script_lines p /\
     Phase1.audio_src p' = Phase1.audio_src p) /\
  (Phase1.pd_audio_url data <> Phase1.Undefined ->
     Phase1.strip_hidden p' = true /\
     Phase1.result_hidden p' = false /\
     Phase1.script_lines p' = Phase1.render_line <$> script /\
     Phase1.audio_concealed p' =
       negb (truthy_opt (Phase1.url_value (Phase1.pd_audio_url data)))).
Proof.
  intros Hstate Htr Hne Hscript p'. subst p'.
  unfold Phase1.on_response. cbn [negb].
  rewrite Hstate, Hscript.
  rewrite bool_decide_eq_false_2 by congruence.
  assert (Hor : forall d, or_else (Some state) d = state)
    by (intros d; unfold or_else; now rewrite Htr).
  rewrite Hor.
  destruct (Phase1.pd_audio_url data) as [| |u];
    cbn [Phase1.setState Phase1.showResult Phase1.set_submit_disabled
         Phase1.strip_state Phase1.strip_hidden Phase1.result_hidden
         Phase1.script_lines Phase1.audio_src Phase1.audio_concealed
         Phase1.url_value];
    (split; [reflexivity|]); split; intros H; try discriminate H;
    try contradiction; repeat split.
Qed.

Lemma phase1_partial_answer_witness :
  let p := Phase1.mkPageState true [] [] Phase1.fresh_steps true [] true true
                              None true [] None [] in
  let data := Phase1.mkPodcastData None (Some (lit "synthesizing")) None
                                   (Some two_lines) Phase1.Null in
  Phase1.script_lines (Phase1.on_response true data p) = Phase1.render_line <$> two_lines /\
  Phase1.audio_concealed (Phase1.on_response true data p) = true.
Proof.
  intros p data.
  destruct (phase1_partial_answer p data (lit "synthesizing") two_lines)
    as (_ & _ & H); try reflexivity; try discriminate.
  destruct H as (_ & _ & H1 & H2); [discriminate|].
  split; [exact H1 | exact H2].
Defined.

(** ** The history *)

Lemma filter_all {A} (P : A -> Prop) `{forall x, Decision (P x)} (l : list A) :
  (forall x, x ∈ l -> P x) -> filter P l = l.
Proof.
  induction l as [|x l IH]; intros Hall; [reflexivity|].
  rewrite filter_cons_True by (apply Hall, elem_of_cons; now left).
  f_equal. apply IH. intros y Hy. apply Hall, elem_of_cons. now right.
Qed.

Lemma getHistory_removeFromHistory (i : N) (st : State) :
  getHistory (removeFromHistory i st) =
    if storage_writable (browser st)
    then filter (fun e => entry_id e ≠ i) (getHistory st)
    else getHistory st.
Proof.
  unfold removeFromHistory, saveHistory.
  now destruct (storage_writable (browser st)).
Qed.

(** X10.  Removing a history entry by id (with storage accepting the
    write) leaves exactly the stored entries with another id, in their
    order, and the list on display shows that stored list; removing an id
    that is not there changes nothing in storage. *)
Theorem removeFromHistory_removes_by_id (i : N) (st : State) :
  storage_writable (browser st) = true ->
  let st' := removeFromHistory i st in
  getHistory st' = filter (fun e => entry_id e ≠ i) (getHistory st) /\
  (forall e, e ∈ getHistory st' <-> e ∈ getHistory st /\ entry_id e <> i) /\
  historyList (page st') = render_entry <$> getHistory st' /\
  ((forall e, e ∈ getHistory st -> entry_id e <> i) -> getHistory st' = getHistory st).
Proof.
  intros Hw st'. subst st'. rewrite getHistory_removeFromHistory, Hw.
  split; [reflexivity|]. split; [|split].
  - intros e. rewrite list_elem_of_filter. tauto.
  - unfold removeFromHistory, saveHistory. rewrite Hw. reflexivity.
  - intros Hall. now apply filter_all.
Qed.

Lemma removeFromHistory_removes_by_id_witness :
  let st' := removeFromHistory 7 with_full_history in
  length (getHistory st') = 49 /\
  historyList (page st') = render_entry <$> getHistory st'.
Proof.
  intros st'.
  destruct (removeFromHistory_removes_by_id 7 with_full_history eq_refl)
    as (H1 & _ & H2 & _).
  split; [|exact H2]. unfold st'. rewrite H1. vm_compute. reflexivity.
Defined.

(** X11.  Adding an entry and removing it again by its id gives back the
    stored history, as long as fewer than 50 entries were stored and none
    of them carries the id of the new one (its time stamp).  From a full
    history the oldest entry is lost for good. *)
Theorem add_then_remove_restores_history (filename today : jsstring) (st : State) :
  storage_writable (browser st) = true ->
  (forall e, e ∈ getHistory st -> entry_id e <> clock (browser st)) ->
  let st' := removeFromHistory (clock (browser st)) (addToHistory filename today st) in
  (length (getHistory st) < 50 -> getHistory st' = getHistory st) /\
  (length (getHistory st) = 50 -> getHistory st' = removelast (getHistory st)).
Proof.
  intros Hw Hfresh st'. subst st'.
  rewrite getHistory_removeFromHistory.
  assert (Hw' : storage_writable (browser (addToHistory filename today st)) = true).
  { unfold addToHistory, saveHistory. rewrite Hw. exact Hw. }
  rewrite Hw', getHistory_addToHistory, Hw.
  split; intros Hlen.
  - unfold history_after_add. cbn [length].
    destruct (Nat.ltb_spec HISTORY_CAP (S (length (getHistory st))));
      [unfold HISTORY_CAP in *; lia|].
    rewrite filter_cons_False by (cbn [entry_id new_entry]; intros Hn; now apply Hn).
    now apply filter_all.
  - rewrite history_after_add_full by exact Hlen.
    rewrite filter_cons_False by (cbn [entry_id new_entry]; intros Hn; now apply Hn).
    apply filter_all. intros e He. apply Hfresh.
    destruct (getHistory st) as [|x l] using rev_ind; [now apply elem_of_nil in He|].
    rewrite removelast_last in He. apply elem_of_app. now left.
Qed.

Lemma add_then_remove_restores_history_witness :
  let st := run listening initial in
  getHistory (removeFromHistory (clock (browser st))
                (addToHistory (lit "Second.epub") (lit "Nov 2, 2026") st))
  = getHistory st.
Proof.
  intros st.
  destruct (add_then_remove_restores_history (lit "Second.epub") (lit "Nov 2, 2026") st)
    as [H _].
  - vm_compute. reflexivity.
  - intros e He. vm_compute in He.
    repeat (apply elem_of_cons in He as [He|He]; [subst e; vm_compute; discriminate|]).
    now apply elem_of_nil in He.
  - apply H. vm_compute. lia.
Defined.

Lemma step_keeps_history_rendered (ev : Event) (st : State) :
  history_rendered st -> history_rendered (step ev st).
Proof.
  intros H.
  destruct ev; unfold step; try exact H.
  - unfold on_form_submit. destruct (validateFile _); [|exact H].
    unfold showError. clear_timeouts. exact H.
  - unfold on_episode_activate. case_if; [exact H|].
    destruct (episodeList (page st) !! k); [|exact H].
    unfold onEpisodeSelected. repeat case_if; exact H.
  - unfold on_generate_click. case_if; [exact H|].
    destruct (currentUploadId (vars st)) as [uid|];
      [destruct (selectedEpisodeId (vars st)); [case_if|]|];
      try exact H; unfold showError; clear_timeouts; exact H.
  - unfold on_demo_click. case_if; exact H.
  - unfold on_interrupt_click. repeat case_if; exact H.
  - unfold on_ask_submit. case_if; [exact H|]. case_if; [exact H|].
    destruct (currentEpisodeScript (vars st)) as [[|l ls]|];
      try exact H; unfold showError; clear_timeouts; exact H.
  - unfold removeFromHistory, saveHistory, history_rendered.
    destruct (storage_writable (browser st)); reflexivity.
  - unfold on_ended. case_if; [|exact H].
    unfold resumeMainAudio. case_if; exact H.
  - unfold on_answer_play_rejected, resumeMainAudio. case_if; exact H.
  - unfold on_parse_response. destruct ok; cbv beta iota zeta delta [negb].
    + unfold renderEpisodeList. plumbing.
      case_if;
        (match goal with
         | |- history_rendered (match ?f with _ => _ end) => destruct f as [file|]
         end; [|exact H]);
        (case_if; [|exact H]);
        unfold addToHistory, saveHistory, history_rendered; plumbing;
        case_if; reflexivity.
    + unfold showError. clear_timeouts. exact H.
  - unfold on_parse_network_error, showError. clear_timeouts. exact H.
  - unfold on_generate_response. destruct ok; cbv beta iota zeta delta [negb];
      unfold showResult, showError; clear_timeouts; exact H.
  - unfold on_generate_network_error, showError. clear_timeouts. exact H.
  - unfold on_demo_response. destruct ok; cbv beta iota zeta delta [negb];
      unfold showResult, showError; clear_timeouts; exact H.
  - unfold on_demo_network_error, showError. clear_timeouts. exact H.
  - unfold on_ask_response. destruct ok; cbv beta iota zeta delta [negb];
      [case_if|]; try exact H; unfold showError; clear_timeouts; exact H.
  - unfold on_ask_network_error, showError. clear_timeouts. exact H.
  - unfold fire. destruct (timers (browser st) !! h) as [t|]; [|exact H].
    case_if; [|exact H].
    destruct (action t); unfold run_timer; try exact H.
    unfold showResult_transition, history_rendered, getHistory.
    rewrite schedule_rows_stored_history, schedule_rows_page.
    match goal with
    | |- context [match ?o with Some _ => _ | None => _ end] =>
        destruct o as [t0|]; [destruct (truthy t0)|]
    end;
      repeat case_if; exact H.
Qed.

(** X12.  Both properties of the history hold at every point of every run
    of the page that starts with them, in particular from an empty
    storage: at most 50 entries are stored, and the list in the sidebar
    is the rendering of the stored list. *)
Theorem history_invariants (evs : list Event) (st : State) :
  history_bounded st -> history_rendered st ->
  history_bounded (run evs st) /\ history_rendered (run evs st).
Proof.
  revert st. induction evs as [|ev evs IH]; intros st Hb Hr; [now split|].
  apply IH; [now apply step_keeps_history_bounded | now apply step_keeps_history_rendered].
Qed.

Lemma history_invariants_witness :
  length (getHistory (run asking initial)) <= 50 /\
  historyList (page (run asking initial)) = render_entry <$> getHistory (run asking initial).
Proof.
  apply (history_invariants asking initial).
  - unfold history_bounded. vm_compute. lia.
  - reflexivity.
Defined.

(** ** Episodes *)

Lemma or_else_empty (s : jsstring) : or_else (Some s) [] = s.
Proof. unfold or_else. now destruct s. Qed.

Lemma present_upd_vars (i : string) (f : Vars -> Vars) (st : State) :
  present i (upd_vars f st) = present i st.
Proof. reflexivity. Qed.

(** X13.  Activating the [k]-th episode item records its id and title as
    the selection and marks exactly the items with that id; with pairwise
    distinct ids that is item [k] alone, whatever was selected before.
    The steering prompt is emptied.  An index with no item changes
    nothing. *)
Theorem episode_selection_is_single (k : nat) (st : State) :
  present "episode-list" st = true ->
  (forall item, episodeList (page st) !! k = Some item ->
     let st' := step (EpisodeActivate k) st in
     selectedEpisodeId (vars st') = Some (episodeId item) /\
     selectedEpisodeTitle (vars st') = Some (episodeTitle item) /\
     episodeList (page st') =
       (fun el => {| episodeId := episodeId el; episodeTitle := episodeTitle el;
                     item_text := item_text el;
                     is_selected := bool_decide (episodeId el = episodeId item) |})
         <$> episodeList (page st) /\
     (NoDup (episodeId <$> episodeList (page st)) ->
        forall j it, episodeList (page st') !! j = Some it ->
          is_selected it = bool_decide (j = k)) /\
     (present "episode-selected-block" st = true ->
      present "episode-prompt" st = true ->
        read_value "episode-prompt" st' = [] /\
        visible "episode-selected-block" st' = true)) /\
  (episodeList (page st) !! k = None -> step (EpisodeActivate k) st = st).
Proof.
  intros Hlist.
  assert (Hsingle : forall (l : list EpisodeItem) item j it,
            NoDup (episodeId <$> l) -> l !! k = Some item ->
            ((fun el => {| episodeId := episodeId el; episodeTitle := episodeTitle el;
                           item_text := item_text el;
                           is_selected := bool_decide (episodeId el = episodeId item) |})
               <$> l) !! j = Some it ->
            is_selected it = bool_decide (j = k)).
  { intros l item j it Hnodup Hitem Hj.
    rewrite list_lookup_fmap in Hj.
    destruct (l !! j) as [it0|] eqn:Ej; [|discriminate Hj].
    injection Hj as <-. cbn [is_selected].
    apply bool_decide_ext. split.
    - intros Eid.
      apply (NoDup_lookup (episodeId <$> l) j k (episodeId it0) Hnodup);
        rewrite list_lookup_fmap; [rewrite Ej|rewrite Hitem]; cbn; congruence.
    - intros ->. rewrite Hitem in Ej. now injection Ej as ->. }
  split.
  - intros item Hitem st'. subst st'.
    unfold step, on_episode_activate. rewrite Hlist, Hitem. cbn [negb].
    rewrite or_else_empty. unfold onEpisodeSelected. cbv zeta.
    rewrite !present_upd_vars.
    destruct (present "episode-selected-block" st) eqn:Hblock.
    + unfold write_value, unhide. rewrite !present_on_element, present_upd_vars, Hlist.
      split; [reflexivity|]. split; [reflexivity|]. split; [reflexivity|].
      split.
      * intros Hnodup j it Hj. exact (Hsingle _ item j it Hnodup Hitem Hj).
      * intros _ Hprompt. plumbing. lookups.
        use_present Hblock. use_present Hprompt. split; reflexivity.
    + rewrite present_upd_vars, Hlist.
      split; [reflexivity|]. split; [reflexivity|]. split; [reflexivity|].
      split; [|discriminate].
      intros Hnodup j it Hj. exact (Hsingle _ item j it Hnodup Hitem Hj).
  - intros Hnone. unfold step, on_episode_activate. rewrite Hlist, Hnone. reflexivity.
Qed.

Lemma episode_selection_is_single_witness :
  let st := run [ChooseFile (Some book); FormSubmit;
                 ParseResponse true
                   {| parse_error := None; parse_upload_id := Some (lit "u1");
                      parse_episodes :=
                        Some [ {| ep_id := 1; ep_title := Some (lit "Chapter 1") |};
                               {| ep_id := 2; ep_title := None |} ] |}
                   (lit "Nov 1, 2026");
                 EpisodeActivate 0] initial in
  let st' := step (EpisodeActivate 1) st in
  selectedEpisodeTitle (vars st') = Some (lit "Episode 2") /\
  (is_selected <$> episodeList (page st')) = [false; true].
Proof.
  intros st st'.
  destruct (episode_selection_is_single 1 st) as [H _]; [vm_compute; reflexivity|].
  destruct (H {| episodeId := lit "2"; episodeTitle := lit "Episode 2";
                 item_text := lit "Episode 2"; is_selected := false |})
    as (_ & H1 & H2 & _); [vm_compute; reflexivity|].
  split; [exact H1|]. unfold st'. rewrite H2. vm_compute. reflexivity.
Defined.



(** ** Requests are issued only when their guard passes *)

(** X15.  The upload form sends a file only when [validateFile] accepts
    it.  For a refused file no request is issued and the banner shows the
    verdict; for an accepted one exactly one parse request goes out,
    carrying the file and the two settings, the submit button is hidden
    and the progress section shown. *)
Theorem form_submit_sends_only_valid_files (st : State) :
  let st' := step FormSubmit st in
  (forall err, validateFile (files0 (page st)) = Some err ->
     requests (browser st') = requests (browser st) /\
     error_text st' = (fun _ => err) <$> error_text st /\
     hidden <$> getElementById "error-panel" st' =
       (fun _ => false) <$> getElementById "error-panel" st) /\
  (validateFile (files0 (page st)) = None ->
     requests (browser st') =
       PostParse (files0 (page st)) (read_value "setting-language" st)
                 (read_value "setting-vibe" st) :: requests (browser st) /\
     hidden <$> getElementById "submit-btn" st' =
       (fun _ => true) <$> getElementById "submit-btn" st /\
     hidden <$> getElementById "progress-section" st' =
       (fun _ => false) <$> getElementById "progress-section" st /\
     hidden <$> getElementById "error-panel" st' =
       (fun _ => true) <$> getElementById "error-panel" st).
Proof.
  intros st'. subst st'. unfold step, on_form_submit.
  split.
  - intros err Herr. rewrite Herr. unfold showError. clear_timeouts.
    split; [reflexivity|]. plumbing. lookups. rewrite <- !option_fmap_compose.
    split; match goal with |- _ <$> ?o = _ <$> ?o => destruct o; reflexivity end.
  - intros Hok. rewrite Hok. unfold hideError, setProgress. plumbing. lookups.
    rewrite <- !option_fmap_compose.
    split; [reflexivity|].
    repeat split;
      match goal with |- _ <$> ?o = _ <$> ?o => destruct o; reflexivity end.
Qed.

Lemma form_submit_sends_only_valid_files_witness :
  let st := step (ChooseFile (Some (mkFile (lit "notes.txt") 10))) initial in
  requests (browser (step FormSubmit st)) = [] /\
  error_text (step FormSubmit st) = Some msg_unsupported.
Proof.
  intros st.
  destruct (form_submit_sends_only_valid_files st) as [H _].
  destruct (H msg_unsupported eq_refl) as (H1 & H2 & _).
  split; [exact H1 | rewrite H2; vm_compute; reflexivity].
Defined.

(** X16.  The generate button sends a request only with an upload id and
    a selected episode.  Without either, nothing is sent and the banner
    asks to select an episode; with both, one request goes out with the
    upload id, the selected episode and the trimmed steering prompt, and
    the button is disabled until the answer. *)
Theorem generate_needs_selection (st : State) :
  present "generate-episode-btn" st = true ->
  let st' := step GenerateClick st in
  (truthy_opt (currentUploadId (vars st)) = false \/ selectedEpisodeId (vars st) = None ->
     requests (browser st') = requests (browser st) /\
     error_text st' =
       (fun _ => lit "Please select an episode first.") <$> error_text st) /\
  (forall uid eid,
     currentUploadId (vars st) = Some uid -> truthy uid = true ->
     selectedEpisodeId (vars st) = Some eid ->
     requests (browser st') =
       PostGenerateEpisode uid eid (trim (read_value "episode-prompt" st))
       :: requests (browser st) /\
     disabled <$> getElementById "generate-episode-btn" st' = Some true).
Proof.
  intros Hbtn st'. subst st'. unfold step, on_generate_click. rewrite Hbtn.
  cbn [negb]. split.
  - intros Hguard.
    assert (E : forall s, error_text (showError (lit "Please select an episode first.") s)
                = (fun _ => lit "Please select an episode first.") <$> error_text s).
    { intros s. unfold showError. clear_timeouts. plumbing. lookups.
      rewrite <- !option_fmap_compose.
      match goal with |- _ <$> ?o = _ <$> ?o => destruct o; reflexivity end. }
    assert (R : forall s, requests (browser (showError (lit "Please select an episode first.") s))
                = requests (browser s)).
    { intros s. unfold showError. clear_timeouts. reflexivity. }
    destruct (currentUploadId (vars st)) as [uid|] eqn:Huid;
      [destruct (selectedEpisodeId (vars st)) as [eid|] eqn:Heid|].
    + destruct Hguard as [Hg|Hg]; [|discriminate Hg].
      cbn [truthy_opt] in Hg. rewrite Hg. cbn [negb]. split; [apply R | apply E].
    + split; [apply R | apply E].
    + split; [apply R | apply E].
  - intros uid eid Huid Htr Heid. rewrite Huid, Heid, Htr. cbn [negb].
    unfold hideError, setProgress.
    assert (Hprompt : forall s : State,
              (if truthy (read_value "episode-prompt" s)
               then trim (read_value "episode-prompt" s) else [])
              = trim (read_value "episode-prompt" s)).
    { intros s. destruct (read_value "episode-prompt" s); reflexivity. }
    rewrite Hprompt. split.
    + plumbing. lookups. reflexivity.
    + plumbing. lookups. use_present Hbtn. reflexivity.
Qed.

Lemma generate_needs_selection_witness :
  let st := run [ChooseFile (Some book); FormSubmit; parsed] initial in
  requests (browser (step GenerateClick st)) = requests (browser st) /\
  error_text (step GenerateClick st) = Some (lit "Please select an episode first.").
Proof.
  intros st.
  destruct (generate_needs_selection st) as [H _]; [vm_compute; reflexivity|].
  destruct H as [H1 H2]; [right; vm_compute; reflexivity|].
  split; [exact H1 | rewrite H2; vm_compute; reflexivity].
Defined.

(** ** More on the interrupt controller *)

Lemma state_eq (a b : State) :
  vars a = vars b -> page a = page b -> browser a = browser b -> a = b.
Proof. destruct a, b. cbn. now intros -> -> ->. Qed.

Lemma page_eq (a b : Page) :
  elems a = elems b -> audioPlayer a = audioPlayer b ->
  scriptContent a = scriptContent b -> episodeList a = episodeList b ->
  historyList a = historyList b -> files0 a = files0 b -> a = b.
Proof. destruct a, b. cbn. now intros -> -> -> -> -> ->. Qed.

Lemma on_interrupt_click_eq (st : State) :
  present "interrupt-btn" st = true ->
  negb (bool_decide (is_Some (currentEpisodeScript (vars st))))
  || negb (truthy_opt (currentMainAudioUrl (vars st))) = false ->
  on_interrupt_click st =
    hide "interrupt-btn"
      (unhide "interrupt-ask-form"
         (upd_vars (set_savedResumeTime (currentTime (audioPlayer (page st))))
                   (audio_pause st))).
Proof.
  intros Hbtn Hguard. unfold on_interrupt_click. now rewrite Hbtn, Hguard.
Qed.

(** X17.  Interrupting twice in a row is the same as interrupting once:
    the second click pauses an audio that is already paused, captures the
    same position and leaves the ask form shown and the trigger hidden. *)
Theorem interrupt_twice_is_once (st : State) :
  step InterruptClick (step InterruptClick st) = step InterruptClick st.
Proof.
  unfold step.
  destruct (present "interrupt-btn" st) eqn:Hbtn.
  2:{ assert (E : on_interrupt_click st = st)
        by (unfold on_interrupt_click; now rewrite Hbtn).
      now rewrite !E. }
  destruct (negb (bool_decide (is_Some (currentEpisodeScript (vars st))))
            || negb (truthy_opt (currentMainAudioUrl (vars st)))) eqn:Hguard.
  { assert (E : on_interrupt_click st = st)
      by (unfold on_interrupt_click; now rewrite Hbtn, Hguard).
    now rewrite !E. }
  rewrite (on_interrupt_click_eq st Hbtn Hguard).
  rewrite on_interrupt_click_eq.
  - apply state_eq; [reflexivity| |reflexivity].
    apply page_eq; try reflexivity.
    plumbing. apply map_eq. intros i. rewrite !lookup_alter.
    repeat case_decide; try congruence;
      match goal with
      | |- context [elems (page st) !! ?k] => destruct (elems (page st) !! k)
      end; reflexivity.
  - unfold hide, unhide. rewrite !present_on_element. exact Hbtn.
  - exact Hguard.
Qed.

(** X18.  A question asked while no script, or an empty one, is loaded is
    not sent: no request is issued, the banner says that no episode script
    is available, and the ask button is left as it was. *)
Theorem ask_without_script_sends_nothing (st : State) :
  present "interrupt-ask-submit" st = true ->
  present "interrupt-question" st = true ->
  truthy (trim (read_value "interrupt-question" st)) = true ->
  nonempty_script (currentEpisodeScript (vars st)) = false ->
  let st' := step AskSubmit st in
  requests (browser st') = requests (browser st) /\
  error_text st' = (fun _ => lit "No episode script available.") <$> error_text st /\
  getElementById "interrupt-ask-submit" st' = getElementById "interrupt-ask-submit" st /\
  isPlayingInterruptReply (vars st') = isPlayingInterruptReply (vars st).
Proof.
  intros Hsubmit Hquestion Hq Hscript st'. subst st'.
  unfold step, on_ask_submit. rewrite Hsubmit, Hquestion, Hq. cbn [negb andb].
  destruct (currentEpisodeScript (vars st)) as [[|l ls]|]; try discriminate Hscript;
    unfold showError; clear_timeouts;
    (split; [reflexivity|]); plumbing; lookups; rewrite <- ?option_fmap_compose;
    (split; [match goal with |- _ <$> ?o = _ <$> ?o => destruct o; reflexivity end|]);
    split; reflexivity.
Qed.

Lemma ask_without_script_sends_nothing_witness :
  let st := step (TypeQuestion (lit "Why?")) initial in
  requests (browser (step AskSubmit st)) = [] /\
  error_text (step AskSubmit st) = Some (lit "No episode script available.").
Proof.
  intros st.
  destruct (ask_without_script_sends_nothing st) as (H1 & H2 & _);
    try (vm_compute; reflexivity).
  split; [exact H1 | rewrite H2; vm_compute; reflexivity].
Defined.

(** ** Tracked timers *)

(** X19.  [showError] cancels every timer recorded in [progressTimeouts]
    and empties the list: a cancelled handle that fires later does
    nothing, and timers that were not recorded are left pending. *)
Theorem showError_stops_tracked_timers (msg : jsstring) (st : State) (h : nat) :
  h ∈ progressTimeouts (vars st) ->
  let st' := showError msg st in
  timers (browser st') !! h = None /\
  progressTimeouts (vars st') = [] /\
  step (TimerFired h) st' = st' /\
  (forall h', h' ∉ progressTimeouts (vars st) ->
     timers (browser st') !! h' = timers (browser st) !! h').
Proof.
  intros Hin st'. subst st'.
  assert (Hnone : timers (browser (showError msg st)) !! h = None).
  { unfold showError. clear_timeouts. plumbing.
    rewrite foldl_delete_lookup, bool_decide_eq_true_2; done. }
  split; [exact Hnone|]. split; [unfold showError; clear_timeouts; reflexivity|].
  split.
  - unfold step, fire. now rewrite Hnone.
  - intros h' Hh'. unfold showError. clear_timeouts. plumbing.
    rewrite foldl_delete_lookup, bool_decide_eq_false_2; done.
Qed.

Lemma showError_stops_tracked_timers_witness :
  let st := run (listening ++ [GenerateClick; generated (Some main_url);
                               Elapse 2000; TimerFired 3]) initial in
  progressTimeouts (vars st) = [4; 5] /\
  timers (browser (showError msg_network st)) !! 4 = None /\
  step (TimerFired 4) (showError msg_network st) = showError msg_network st.
Proof.
  intros st.
  assert (E : progressTimeouts (vars st) = [4; 5]) by (vm_compute; reflexivity).
  destruct (showError_stops_tracked_timers msg_network st 4) as (H1 & _ & H2 & _).
  - rewrite E. apply elem_of_cons. now left.
  - split; [exact E|]. split; [exact H1 | exact H2].
Defined.

(** ** The staggered chat rows *)

Lemma schedule_rows_timers (lines : list ScriptLine) :
  forall (i : N) (st : State),
  let st1 := schedule_rows lines i st in
  let n := nextTimer (browser st) in
  nextTimer (browser st1) = n + length lines /\
  clock (browser st1) = clock (browser st) /\
  progressTimeouts (vars st1) = progressTimeouts (vars st) ++ seq n (length lines) /\
  (forall h, h < n -> timers (browser st1) !! h = timers (browser st) !! h) /\
  (forall k line, lines !! k = Some line ->
     timers (browser st1) !! (n + k) =
       Some {| due := (clock (browser st) + (i + N.of_nat k) * CHAT_STAGGER_MS)%N;
               action := AppendChatRow line |}).
Proof.
  induction lines as [|line rest IH]; intros i st.
  - cbn. rewrite Nat.add_0_r, app_nil_r. repeat split; intros; discriminate.
  - cbn [schedule_rows]. unfold setTimeout.
    set (st' := push_timeout _ _).
    destruct (IH (i + 1)%N st') as (Hnext & Hclock & Htracked & Hold & Hrows).
    change (nextTimer (browser st')) with (S (nextTimer (browser st))) in *.
    change (clock (browser st')) with (clock (browser st)) in *.
    change (progressTimeouts (vars st'))
      with (progressTimeouts (vars st) ++ [nextTimer (browser st)]) in *.
    assert (Hins : forall h, h <> nextTimer (browser st) ->
              timers (browser st') !! h = timers (browser st) !! h).
    { intros h Hh. subst st'. plumbing. now rewrite lookup_insert_ne. }
    assert (Hnew : timers (browser st') !! nextTimer (browser st) =
              Some {| due := (clock (browser st) + i * CHAT_STAGGER_MS)%N;
                      action := AppendChatRow line |}).
    { subst st'. plumbing. now rewrite lookup_insert_eq. }
    cbv zeta. cbn [length seq]. split; [lia|]. split; [exact Hclock|].
    split; [rewrite Htracked, <- app_assoc; reflexivity|].
    split.
    + intros h Hh. rewrite Hold by lia. apply Hins. lia.
    + intros [|k] l Hl.
      * cbn in Hl. injection Hl as <-. rewrite Nat.add_0_r, Hold by lia.
        rewrite Hnew. cbn [N.of_nat]. now rewrite N.add_0_r.
      * cbn in Hl. rewrite Nat.add_succ_r. change (S (?a + k)) with (S a + k).
        rewrite (Hrows k l Hl). do 3 f_equal. lia.
Qed.

Lemma showResult_transition_rows
    (script : list ScriptLine) (audioUrl episodeTitle : option jsstring) (st : State) :
  let st' := showResult_transition script audioUrl episodeTitle st in
  let n := nextTimer (browser st) in
  scriptContent (page st') = [] /\
  progressTimeouts (vars st') = progressTimeouts (vars st) ++ seq n (length script) /\
  (forall k line, script !! k = Some line ->
     timers (browser st') !! (n + k) =
       Some {| due := (clock (browser st) + N.of_nat k * CHAT_STAGGER_MS)%N;
               action := AppendChatRow line |}) /\
  (forall h, h < n -> timers (browser st') !! h = timers (browser st) !! h) /\
  clock (browser st') = clock (browser st).
Proof.
  intros st' n. subst st' n. unfold showResult_transition. cbv zeta.
  match goal with
  | |- context [schedule_rows script 0 ?s] =>
      set (s0 := s);
      destruct (schedule_rows_timers script 0%N s0)
        as (_ & Hclock & Htracked & Hold & Hrows)
  end.
  assert (Hb : browser s0 = browser st).
  { subst s0. destruct episodeTitle as [t|]; [destruct (truthy t)|];
      (destruct (truthy_opt audioUrl); [case_if|]); reflexivity. }
  assert (Hv : progressTimeouts (vars s0) = progressTimeouts (vars st)).
  { subst s0. destruct episodeTitle as [t|]; [destruct (truthy t)|];
      (destruct (truthy_opt audioUrl); [case_if|]); reflexivity. }
  assert (Hp : scriptContent (page s0) = []).
  { subst s0. destruct episodeTitle as [t|]; [destruct (truthy t)|];
      (destruct (truthy_opt audioUrl); [case_if|]); reflexivity. }
  rewrite Hb in *. rewrite Hv in *.
  split; [rewrite schedule_rows_page; exact Hp|].
  split; [exact Htracked|]. split; [|split; [exact Hold | exact Hclock]].
  intros k line Hk. rewrite (Hrows k line Hk). now rewrite N.add_0_l.
Qed.

(** X20.  The transition of [showResult] empties the script panel and
    starts one tracked timer per script line: line [k] is due
    [k * 800] ms later, the handles are recorded in order behind those
    already recorded, and older timers are left alone. *)
Theorem transition_schedules_one_timer_per_line
    (script : list ScriptLine) (audioUrl episodeTitle : option jsstring) (st : State) :
  let st' := showResult_transition script audioUrl episodeTitle st in
  let n := nextTimer (browser st) in
  scriptContent (page st') = [] /\
  progressTimeouts (vars st') = progressTimeouts (vars st) ++ seq n (length script) /\
  (forall k line, script !! k = Some line ->
     timers (browser st') !! (n + k) =
       Some {| due := (clock (browser st) + N.of_nat k * CHAT_STAGGER_MS)%N;
               action := AppendChatRow line |}) /\
  (forall h, h < n -> timers (browser st') !! h = timers (browser st) !! h).
Proof.
  intros st' n.
  destruct (showResult_transition_rows script audioUrl episodeTitle st)
    as (H1 & H2 & H3 & H4 & _).
  exact (conj H1 (conj H2 (conj H3 H4))).
Qed.

Lemma transition_schedules_one_timer_per_line_witness :
  let st := showResult_transition two_lines (Some main_url) None initial in
  progressTimeouts (vars st) = [0; 1] /\
  (due <$> timers (browser st) !! (nextTimer (browser initial) + 1)) = Some 800%N.
Proof.
  intros st.
  destruct (transition_schedules_one_timer_per_line two_lines (Some main_url) None initial)
    as (_ & H1 & H2 & _).
  split; [exact H1|].
  unfold st. rewrite (H2 1 _ eq_refl). vm_compute. reflexivity.
Defined.

Lemma fire_rows (lines : list ScriptLine) :
  forall (n : nat) (st : State),
  (forall k line, lines !! k = Some line ->
     exists d, timers (browser st) !! (n + k) =
                 Some {| due := d; action := AppendChatRow line |} /\
               (d <= clock (browser st))%N) ->
  scriptContent (page (fire_all (seq n (length lines)) st)) =
    scriptContent (page st) ++ (chat_row <$> lines).
Proof.
  induction lines as [|line rest IH]; intros n st H.
  - cbn. now rewrite app_nil_r.
  - cbn [length seq].
    change (fire_all (n :: seq (S n) (length rest)) st)
      with (fire_all (seq (S n) (length rest)) (step (TimerFired n) st)).
    destruct (H 0 line eq_refl) as (d & Hd & Hle). rewrite Nat.add_0_r in Hd.
    assert (E : step (TimerFired n) st = appendChatRow line (clearTimeout n st)).
    { unfold step, fire. rewrite Hd. cbn [due action run_timer].
      now rewrite (proj2 (N.leb_le _ _) Hle). }
    rewrite E. rewrite IH.
    + cbn [fmap list_fmap]. unfold appendChatRow. plumbing.
      rewrite <- app_assoc. reflexivity.
    + intros k l Hl. destruct (H (S k) l Hl) as (d' & Hd' & Hle').
      exists d'. split; [|exact Hle'].
      unfold appendChatRow, clearTimeout. plumbing.
      rewrite lookup_delete_ne by lia.
      rewrite Nat.add_succ_r in Hd'. exact Hd'.
Qed.

(** X21.  The chat bubbles appear in script order.  Once the delay of
    line [j - 1] has passed, firing the first [j] row timers in turn
    leaves exactly the bubbles of the first [j] lines in the panel; a row
    timer whose delay has not passed yet does nothing when it is tried. *)
Theorem script_rows_appear_in_order
    (script : list ScriptLine) (audioUrl episodeTitle : option jsstring)
    (st : State) (ms : N) :
  let n := nextTimer (browser st) in
  let st' := step (Elapse ms) (showResult_transition script audioUrl episodeTitle st) in
  (forall j, j <= length script ->
     (N.of_nat j * CHAT_STAGGER_MS <= ms + CHAT_STAGGER_MS)%N ->
     scriptContent (page (fire_all (seq n j) st')) = chat_row <$> take j script) /\
  (forall k, k < length script ->
     (ms < N.of_nat k * CHAT_STAGGER_MS)%N ->
     step (TimerFired (n + k)) st' = st').
Proof.
  intros n st'.
  destruct (showResult_transition_rows script audioUrl episodeTitle st)
    as (Hp & _ & Hrows & _ & Hclock).
  assert (Hc : clock (browser st') = (clock (browser st) + ms)%N)
    by (rewrite <- Hclock; reflexivity).
  assert (Ht : timers (browser st') =
               timers (browser (showResult_transition script audioUrl episodeTitle st)))
    by reflexivity.
  assert (Hs : scriptContent (page st') = []) by exact Hp.
  clearbody st'. subst n.
  split.
  - intros j Hj Hms.
    replace j with (length (take j script)) at 1 by (rewrite length_take; lia).
    rewrite fire_rows.
    + now rewrite Hs.
    + intros k line Hk. apply lookup_take_Some in Hk as [Hk Hlt].
      eexists. split.
      * rewrite Ht. apply (Hrows k line Hk).
      * rewrite Hc. unfold CHAT_STAGGER_MS in *. lia.
  - intros k Hk Hms. destruct (lookup_lt_is_Some_2 script k Hk) as [line Hline].
    unfold step, fire. rewrite Ht, (Hrows k line Hline). cbn [due].
    rewrite Hc. now rewrite (proj2 (N.leb_gt _ _)) by lia.
Qed.

Lemma script_rows_appear_in_order_witness :
  let st' := step (Elapse 800)
               (showResult_transition two_lines (Some main_url) None initial) in
  scriptContent (page (fire_all (seq (nextTimer (browser initial)) 2) st')) =
    chat_row <$> two_lines.
Proof.
  intros st'.
  destruct (script_rows_appear_in_order two_lines (Some main_url) None initial 800)
    as [H _].
  apply (H 2); [vm_compute; lia | unfold CHAT_STAGGER_MS; lia].
Defined.

(** ** What the transition puts on display *)

Lemma showResult_transition_display
    (script : list ScriptLine) (audioUrl episodeTitle : option jsstring) (s : State) :
  let s' := showResult_transition script audioUrl episodeTitle s in
  (savedResumeTime (vars s') = 0%Q /\
   isPlayingInterruptReply (vars s') = false /\
   currentEpisodeScript (vars s') = currentEpisodeScript (vars s) /\
   currentMainAudioUrl (vars s') = currentMainAudioUrl (vars s)) /\
  (src (audioPlayer (page s')) = or_null audioUrl /\
   audio_hidden (audioPlayer (page s')) = negb (truthy_opt audioUrl)) /\
  hidden <$> getElementById "result-panel" s' =
    (fun _ => false) <$> getElementById "result-panel" s /\
  hidden <$> getElementById "interrupt-block" s' =
    (fun _ => negb (truthy_opt audioUrl
                    && nonempty_script (currentEpisodeScript (vars s))))
    <$> getElementById "interrupt-block" s.
Proof.
  intros s'. subst s'. unfold showResult_transition. cbv zeta.
  unfold getElementById.
  rewrite schedule_rows_page, schedule_rows_vars.
  destruct audioUrl as [u|]; cbn [truthy_opt or_null];
    [destruct (truthy u) eqn:Hu|];
    (destruct episodeTitle as [t|]; [destruct (truthy t)|]);
    try case_if;
    (split; [repeat split|]);
    (split; [split; reflexivity|]);
    plumbing; lookups; rewrite <- ?option_fmap_compose;
    (split; [reflexivity|]).
  all: try match goal with
    | H : _ && _ = true |- _ => apply andb_prop in H as [_ H]; rewrite H
    | H : _ && _ = false |- _ => apply andb_false_iff in H as [H|H]; [|rewrite H]
    end.
  all: match goal with
    | |- _ <$> ?o = _ => destruct o eqn:E
    end; try reflexivity.
  all: rewrite !lookup_alter_ne in * by discriminate.
  all: match goal with H : bool_decide _ = false |- _ => rewrite E in H end.
  all: discriminate.
Qed.

(** X22.  Two seconds after [showResult] the transition runs: the result
    panel is shown, the player carries the audio address (or is hidden and
    without source when there is none), the interrupt block is on offer
    exactly when there is both audio and a non-empty script, and the
    playback state is reset: resume position 0, no answer clip playing. *)
Theorem result_is_displayed_after_transition
    (script : list ScriptLine) (audioUrl episodeTitle : option jsstring)
    (st : State) (ms : N) :
  (PROGRESS_TRANSITION_MS <= ms)%N ->
  let n := nextTimer (browser st) in
  let st' := run [Elapse ms; TimerFired n] (showResult script audioUrl episodeTitle st) in
  (savedResumeTime (vars st') = 0%Q /\
   isPlayingInterruptReply (vars st') = false /\
   currentEpisodeScript (vars st') = Some script /\
   currentMainAudioUrl (vars st') = or_null audioUrl) /\
  (src (audioPlayer (page st')) = or_null audioUrl /\
   audio_hidden (audioPlayer (page st')) = negb (truthy_opt audioUrl)) /\
  hidden <$> getElementById "result-panel" st' =
    (fun _ => false) <$> getElementById "result-panel" st /\
  hidden <$> getElementById "interrupt-block" st' =
    (fun _ => negb (truthy_opt audioUrl && nonempty_script (Some script)))
    <$> getElementById "interrupt-block" st /\
  timers (browser st') !! n = None.
Proof.
  intros Hms n st'.
  destruct (showResult_transition_timer script audioUrl episodeTitle st)
    as (Htimer & _ & Hnext).
  cbv zeta in Htimer, Hnext.
  assert (Hclk : clock (browser (showResult script audioUrl episodeTitle st)) =
                 clock (browser st))
    by (unfold showResult, setProgress; clear_timeouts; reflexivity).
  set (st1 := showResult script audioUrl episodeTitle st) in *.
  set (s := clearTimeout n (step (Elapse ms) st1)).
  assert (Efire : st' = showResult_transition script audioUrl episodeTitle s).
  { subst st'. unfold run. cbn [foldl]. unfold step at 1. unfold fire.
    change (timers (browser (step (Elapse ms) st1))) with (timers (browser st1)).
    fold n in Htimer. rewrite Htimer. cbn [due action run_timer].
    change (clock (browser (step (Elapse ms) st1)))
      with (clock (browser st1) + ms)%N.
    rewrite Hclk.
    rewrite (proj2 (N.leb_le _ _)) by lia. reflexivity. }
  destruct (showResult_transition_display script audioUrl episodeTitle s)
    as (Hvars & Haudio & Hpanel & Hblock).
  destruct (showResult_transition_rows script audioUrl episodeTitle s)
    as (_ & _ & _ & Hold & _).
  cbv zeta in Hvars, Haudio, Hpanel, Hblock, Hold.
  rewrite <- Efire in Hvars, Haudio, Hpanel, Hblock, Hold. clearbody st'.
  split; [exact Hvars|]. split; [exact Haudio|].
  split.
  { rewrite Hpanel. subst s st1. unfold step, showResult, setProgress. clear_timeouts.
    plumbing. lookups. rewrite <- ?option_fmap_compose. reflexivity. }
  split.
  { rewrite Hblock. subst s st1. unfold step, showResult, setProgress. clear_timeouts.
    plumbing. lookups. rewrite <- ?option_fmap_compose. reflexivity. }
  rewrite Hold.
  - subst s. unfold clearTimeout. plumbing. apply lookup_delete_eq.
  - change (nextTimer (browser s)) with (nextTimer (browser st1)). rewrite Hnext.
    subst n. lia.
Qed.

Lemma result_is_displayed_after_transition_witness :
  let st' := run [Elapse 2000; TimerFired (nextTimer (browser initial))]
                 (showResult two_lines (Some main_url) None initial) in
  src (audioPlayer (page st')) = Some main_url /\
  savedResumeTime (vars st') = 0%Q.
Proof.
  intros st'.
  destruct (result_is_displayed_after_transition two_lines (Some main_url) None initial 2000)
    as ((H1 & _) & (H2 & _) & _).
  - unfold PROGRESS_TRANSITION_MS. lia.
  - exact (conj H2 H1).
Defined.

(** ** The staged progress of the older script *)

Lemma legacy_tick (k : nat) (w : N) (t : jsstring) (h : nat) (st : State) :
  Legacy.STAGED_MESSAGES !! k = Some (w, t) ->
  timers (browser st) !! h =
    Some {| due := (clock (browser st) + STAGED_DURATION_MS)%N;
            action := StagedNext k |} ->
  let st' := Legacy.run [Legacy.Elapse STAGED_DURATION_MS; Legacy.TimerFired h] st in
  timers (browser st') !! nextTimer (browser st) =
    Some {| due := (clock (browser st') + STAGED_DURATION_MS)%N;
            action := StagedNext (S k) |} /\
  nextTimer (browser st') = S (nextTimer (browser st)) /\
  requests (browser st') = requests (browser st) /\
  elems (page st') =
    alter (set_textContent t) "progress-status"
      (alter (set_percent w) "progress-bar" (elems (page st))).
Proof.
  intros Hk Hh st'.
  assert (E : st' = Legacy.next k
                      (clearTimeout h (Legacy.step (Legacy.Elapse STAGED_DURATION_MS) st))).
  { subst st'. unfold Legacy.run. cbn [foldl].
    unfold Legacy.step at 1. unfold fire.
    change (timers (browser (Legacy.step (Legacy.Elapse STAGED_DURATION_MS) st)))
      with (timers (browser st)).
    rewrite Hh. cbn [due action].
    change (clock (browser (Legacy.step (Legacy.Elapse STAGED_DURATION_MS) st)))
      with (clock (browser st) + STAGED_DURATION_MS)%N.
    rewrite N.leb_refl. reflexivity. }
  rewrite E. clear E st'. unfold Legacy.next. rewrite Hk.
  unfold Legacy.step, setProgress, setTimeout, clearTimeout. cbv zeta. plumbing.
  rewrite lookup_insert_eq. repeat split.
Qed.

(** X23.  In the older script the staged progress runs on timers alone.
    After a valid file is submitted the bar moves to 30, and with 2.4 s
    between the stages it reaches 100 and the text "Ready!" although no
    answer has arrived: the request is still the only thing sent, and the
    result panel is as it was. *)
Theorem legacy_progress_is_ready_without_answer (st : State) :
  validateFile (files0 (page st)) = None ->
  let n := nextTimer (browser st) in
  let tick k := [Legacy.Elapse STAGED_DURATION_MS; Legacy.TimerFired (n + k)] in
  let st0 := Legacy.step Legacy.FormSubmit st in
  let st' := Legacy.run (tick 0 ++ tick 1 ++ tick 2) st0 in
  valuenow <$> getElementById "progress-bar" st0 =
    (fun _ => Some 30%N) <$> getElementById "progress-bar" st /\
  valuenow <$> getElementById "progress-bar" st' =
    (fun _ => Some 100%N) <$> getElementById "progress-bar" st /\
  textContent <$> getElementById "progress-status" st' =
    (fun _ => lit "Ready!") <$> getElementById "progress-status" st /\
  hidden <$> getElementById "result-panel" st' =
    hidden <$> getElementById "result-panel" st /\
  requests (browser st') =
    PostGeneratePodcast (files0 (page st)) (read_value "setting-language" st)
                        (read_value "setting-vibe" st)
    :: requests (browser st).
Proof.
  intros Hvalid n tick st0 st'.
  assert (H0 : timers (browser st0) !! (n + 0) =
                 Some {| due := (clock (browser st0) + STAGED_DURATION_MS)%N;
                         action := StagedNext 1 |} /\
               nextTimer (browser st0) = n + 1 /\
               requests (browser st0) =
                 PostGeneratePodcast (files0 (page st))
                   (read_value "setting-language" st) (read_value "setting-vibe" st)
                 :: requests (browser st) /\
               elems (page st0) =
                 alter (set_textContent (lit "Extracting text from eBook..."))
                   "progress-status"
                   (alter (set_percent 30) "progress-bar"
                      (elems (page (setProgress 0 (lit "Extracting text from eBook...")
                         (unhide "progress-section"
                            (hide "submit-btn" (hideError st)))))))).
  { subst st0. unfold Legacy.step, Legacy.on_form_submit. rewrite Hvalid.
    unfold Legacy.runStagedProgress, Legacy.next.
    change (Legacy.STAGED_MESSAGES !! 0)
      with (Some (30%N, lit "Extracting text from eBook...")).
    unfold setProgress, setTimeout, hideError. cbv zeta. subst n.
    rewrite Nat.add_0_r, Nat.add_1_r. plumbing.
    rewrite lookup_insert_eq. lookups. repeat split. }
  destruct H0 as (Ht0 & Hn0 & Hr0 & He0).
  set (s1 := Legacy.run (tick 0) st0).
  destruct (legacy_tick 1 _ _ (n + 0) st0 eq_refl Ht0) as (Ht1 & Hn1 & Hr1 & He1).
  fold (tick 0) in Ht1, Hn1, Hr1, He1. fold s1 in Ht1, Hn1, Hr1, He1.
  rewrite Hn0 in Ht1, Hn1. rewrite Hr0 in Hr1. rewrite He0 in He1.
  set (s2 := Legacy.run (tick 1) s1).
  destruct (legacy_tick 2 _ _ (n + 1) s1 eq_refl Ht1) as (Ht2 & Hn2 & Hr2 & He2).
  fold (tick 1) in Ht2, Hn2, Hr2, He2. fold s2 in Ht2, Hn2, Hr2, He2.
  rewrite Hn1 in Ht2, Hn2. rewrite Hr1 in Hr2. rewrite He1 in He2.
  replace (S (n + 1)) with (n + 2) in Ht2 by lia.
  destruct (legacy_tick 3 _ _ (n + 2) s2 eq_refl Ht2) as (_ & _ & Hr3 & He3).
  fold (tick 2) in Hr3, He3.
  change (Legacy.run (tick 2) s2) with st' in Hr3, He3.
  rewrite Hr2 in Hr3. rewrite He2 in He3.
  refine (conj _ (conj _ (conj _ (conj _ Hr3))));
    unfold getElementById; rewrite ?He0, ?He3; clear; unfold setProgress, hideError;
    plumbing; lookups; rewrite <- ?option_fmap_compose;
    match goal with
    | |- _ <$> ?o = _ <$> ?o => destruct o; reflexivity
    end.
Qed.

Lemma legacy_progress_is_ready_without_answer_witness :
  let st := Legacy.step (Legacy.ChooseFile (Some book)) initial in
  let st' := Legacy.run [Legacy.FormSubmit;
                         Legacy.Elapse 2400; Legacy.TimerFired 0;
                         Legacy.Elapse 2400; Legacy.TimerFired 1;
                         Legacy.Elapse 2400; Legacy.TimerFired 2] st in
  textContent <$> getElementById "progress-status" st' = Some (lit "Ready!") /\
  length (requests (browser st')) = 1.
Proof.
  intros st st'.
  destruct (legacy_progress_is_ready_without_answer st) as (_ & _ & H1 & _ & H2).
  - vm_compute. reflexivity.
  - split.
    + etransitivity; [exact H1|]. vm_compute. reflexivity.
    + etransitivity; [exact (f_equal (@length _) H2)|]. vm_compute. reflexivity.
Defined.

(** X24.  In the older script a failed upload stops the staged progress:
    the stage timer that the submission started is cancelled together with
    every other recorded timer, so the progress text no longer moves; the
    progress section is hidden and the submit button is back. *)
Theorem legacy_failure_stops_staged_progress (st : State) (ev : Legacy.Event) (ms : N) :
  validateFile (files0 (page st)) = None ->
  ev = Legacy.PodcastNetworkError \/
  (exists data today, ev = Legacy.PodcastResponse false data today) ->
  let n := nextTimer (browser st) in
  let st' := Legacy.run [Legacy.FormSubmit; ev] st in
  timers (browser st') !! n = None /\
  progressTimeouts (vars st') = [] /\
  Legacy.run [Legacy.Elapse ms; Legacy.TimerFired n] st' =
    Legacy.step (Legacy.Elapse ms) st' /\
  hidden <$> getElementById "progress-section" st' =
    (fun _ => true) <$> getElementById "progress-section" st /\
  hidden <$> getElementById "submit-btn" st' =
    (fun _ => false) <$> getElementById "submit-btn" st /\
  disabled <$> getElementById "submit-btn" st' =
    (fun _ => false) <$> getElementById "submit-btn" st.
Proof.
  intros Hvalid Hev n st'.
  assert (E : exists msg, st' = Legacy.showError msg (Legacy.step Legacy.FormSubmit st)).
  { destruct Hev as [->|(data & today & ->)]; eexists; reflexivity. }
  destruct E as [msg E].
  assert (Hnone : timers (browser st') !! n = None).
  { rewrite E. unfold Legacy.showError, Legacy.step, Legacy.on_form_submit.
    rewrite Hvalid. unfold Legacy.runStagedProgress, Legacy.next.
    change (Legacy.STAGED_MESSAGES !! 0)
      with (Some (30%N, lit "Extracting text from eBook...")).
    unfold setProgress, setTimeout, hideError. cbv zeta. clear_timeouts. plumbing.
    rewrite foldl_delete_lookup, bool_decide_eq_true_2; [reflexivity|].
    apply elem_of_app. right. apply elem_of_cons. now left. }
  split; [exact Hnone|].
  split; [rewrite E; unfold Legacy.showError; clear_timeouts; reflexivity|].
  split.
  { unfold Legacy.run. cbn [foldl]. unfold Legacy.step at 1. unfold fire.
    change (timers (browser (Legacy.step (Legacy.Elapse ms) ?s)))
      with (timers (browser s)).
    now rewrite Hnone. }
  rewrite E. clear. unfold Legacy.showError, Legacy.step, Legacy.on_form_submit.
  destruct (validateFile (files0 (page st))) as [err|];
    [unfold Legacy.showError|
     unfold Legacy.runStagedProgress, Legacy.next;
     change (Legacy.STAGED_MESSAGES !! 0)
       with (Some (30%N, lit "Extracting text from eBook..."));
     unfold setProgress, setTimeout, hideError; cbv zeta];
    clear_timeouts; unfold getElementById; plumbing; lookups;
    rewrite <- ?option_fmap_compose;
    repeat split;
    match goal with
    | |- _ <$> ?o = _ <$> ?o => destruct o; reflexivity
    end.
Qed.

Lemma legacy_failure_stops_staged_progress_witness :
  let st := Legacy.step (Legacy.ChooseFile (Some book)) initial in
  let st' := Legacy.run [Legacy.FormSubmit; Legacy.PodcastNetworkError] st in
  timers (browser st') !! 0 = None /\
  Legacy.run [Legacy.Elapse 2400; Legacy.TimerFired 0] st' =
    Legacy.step (Legacy.Elapse 2400) st'.
Proof.
  intros st st'.
  destruct (legacy_failure_stops_staged_progress st Legacy.PodcastNetworkError 2400)
    as (H1 & _ & H2 & _).
  - vm_compute. reflexivity.
  - now left.
  - exact (conj H1 H2).
Defined.

(** ** The interrupt round trip on the displayed episode *)

Lemma interrupt_round_trip_witness :
  let st := run listening initial in
  let answer := AskResponse true {| ask_error := None; ask_audio_url := Some answer_url |} in
  let st' := run [InterruptClick; TypeQuestion (lit "Why?"); AskSubmit; answer;
                  Playing 4.2; Playing 7.25; Ended] st in
  src (audioPlayer (page st')) = Some main_url /\
  currentTime (audioPlayer (page st')) = 12.5%Q /\
  paused (audioPlayer (page st')) = false.
Proof.
  intros st answer st'.
  destruct (interrupt_round_trip st main_url (lit "Why?") answer_url
              {| speaker := lit "Host A"; text := lit "Welcome back." |}
              [ {| speaker := lit "Host B"; text := lit "Glad to be here." |} ]
              [4.2%Q; 7.25%Q])
    as (H1 & H2 & H3 & _); try (vm_compute; reflexivity).
  split; [exact H1|]. split; [|exact H3].
  etransitivity; [exact H2|]. vm_compute. reflexivity.
Defined.

(** ** The demo episode *)

(** X26.  Trying the demo sends one request and, whatever comes back
    (an answer, good or bad, or a network error), leaves the upload
    session alone: the upload id, the episode list and the selection are
    what they were.  The demo button is usable again and the progress
    section is hidden. *)
Theorem demo_leaves_session_alone (st : State) (ev : Event) :
  present "try-demo-btn" st = true ->
  ev = DemoNetworkError \/ (exists ok data, ev = DemoResponse ok data) ->
  let st' := run [DemoClick; ev] st in
  session st' = session st /\
  requests (browser st') = PostDemoEpisode :: requests (browser st) /\
  disabled <$> getElementById "try-demo-btn" st' = Some false /\
  hidden <$> getElementById "progress-section" st' =
    (fun _ => true) <$> getElementById "progress-section" st.
Proof.
  intros Hbtn Hev st'. subst st'. unfold run. cbn [foldl].
  assert (Eclick : step DemoClick st =
            fetch PostDemoEpisode
              (setProgress 20 (lit "Preparing demo...")
                 (unhide "progress-section" (disable "try-demo-btn" (hideError st))))).
  { unfold step, on_demo_click. now rewrite Hbtn. }
  rewrite Eclick. clear Eclick.
  destruct Hev as [->|(ok & data & ->)]; [|destruct ok];
    unfold step, on_demo_network_error, on_demo_response, showError, showResult,
      setProgress, hideError, setTimeout, session; cbn [negb]; cbv zeta;
    clear_timeouts; unfold getElementById;
    (split; [reflexivity|]); (split; [reflexivity|]);
    plumbing; lookups; use_present Hbtn; rewrite <- ?option_fmap_compose;
    (split; [reflexivity|]);
    match goal with
    | |- _ <$> ?o = _ <$> ?o => destruct o; reflexivity
    end.
Qed.

Lemma demo_leaves_session_alone_witness :
  let st := run [ChooseFile (Some book); FormSubmit; parsed; EpisodeActivate 0] initial in
  let st' := run [DemoClick; DemoResponse true
                    {| result_error := None; result_script := Some two_lines;
                       result_audio_url := Some main_url |}] st in
  session st' = session st /\
  currentUploadId (vars st') = Some (lit "u1").
Proof.
  intros st st'.
  destruct (demo_leaves_session_alone st
              (DemoResponse true {| result_error := None; result_script := Some two_lines;
                                    result_audio_url := Some main_url |}))
    as (H1 & _).
  - vm_compute. reflexivity.
  - right. eauto.
  - split; [exact H1|]. vm_compute. reflexivity.
Defined.
